(** * Para client for Python: request authentication and token lifecycle

    A shallow embedding of [paraclient/auth.py] (the query-string
    canonicalisation wrapped around the AWS signer) and of the
    authentication part of [paraclient/paraclient.py] (token state,
    [invokeSignedRequest], [refreshToken]), with the properties of the
    specification stated and settled against it.

    Python strings are modelled as byte strings holding their UTF-8
    encoding; all delimiters the code splits on are ASCII, so splitting
    and replacing agree on both views.

    What the code takes from other libraries is either modelled where its
    behaviour matters to a property ([str] methods, [quote_plus], the
    query part of [urlparse]) or taken as a parameter (the signature
    algorithm of [aws_requests_auth], the URL preparation of [requests],
    the network, base64 and JSON decoding). *)

From Stdlib Require Import ZArith Ascii.
From stdpp Require Import gmap strings list.

(** ** Python values, exceptions and results *)

Module Py.

(** The exceptions that the modelled code can raise, each written by
    the name of its class. [RequestException] is caught inside
    [invokeSignedRequest]. [RecursionError] stands for exhausting the
    call depth given to the mutually recursive [invokeSignedRequest] and
    [refreshToken]. *)
Inductive PyExn :=
  | AttributeError | TypeError | KeyError | IndexError
  | JSONDecodeError | ValueError | RequestException | RecursionError.

#[global] Instance PyExn_eq_dec : EqDecision PyExn.
Proof. solve_decision. Defined.

(** [isinstance(e, cls)], which is what [except cls] tests. The classes
    above are unrelated, but for [JSONDecodeError]: what [res.json()]
    raises is [requests.exceptions.JSONDecodeError], a subclass of
    [RequestException] (through [InvalidJSONError]) and of
    [json.JSONDecodeError], which is a [ValueError]. *)
Definition exn_isinstance (e cls : PyExn) : bool :=
  bool_decide (e = cls) ||
  match e, cls with
  | JSONDecodeError, RequestException | JSONDecodeError, ValueError => true
  | _, _ => false
  end.

Inductive result (A : Type) :=
  | Ok (a : A)
  | Raise (e : PyExn).
Arguments Ok {A} a.
Arguments Raise {A} e.

#[global] Instance result_ret : MRet result := @Ok.
#[global] Instance result_bind : MBind result := λ A B f m,
  match m with Ok a => f a | Raise e => Raise e end.
#[global] Instance result_fmap : FMap result := λ A B f m,
  match m with Ok a => Ok (f a) | Raise e => Raise e end.

(** [l[i]] on a Python list. *)
Definition index {A} (l : list A) (i : nat) : result A :=
  match l !! i with Some x => Ok x | None => Raise IndexError end.

(** *** Strings *)

Definition nonempty (s : string) : bool :=
  match s with EmptyString => false | String _ _ => true end.

(** [s.split(sep)] for a one-character separator. *)
Fixpoint split (sep : ascii) (s : string) : list string :=
  match s with
  | EmptyString => [EmptyString]
  | String c s' =>
      if Ascii.eqb c sep then EmptyString :: split sep s'
      else match split sep s' with
           | h :: t => String c h :: t
           | [] => [String c EmptyString]
           end
  end.

(** [s.split(sep, 1)]: at most one cut, at the first separator. *)
Fixpoint split1 (sep : ascii) (s : string) : list string :=
  match s with
  | EmptyString => [EmptyString]
  | String c s' =>
      if Ascii.eqb c sep then [EmptyString; s']
      else match split1 sep s' with
           | h :: t => String c h :: t
           | [] => [String c EmptyString]
           end
  end.

(** [s.replace(c, by)] for a one-character pattern. *)
Fixpoint replace (c : ascii) (by_ : string) (s : string) : string :=
  match s with
  | EmptyString => EmptyString
  | String a s' =>
      if Ascii.eqb a c then by_ +:+ replace c by_ s'
      else String a (replace c by_ s')
  end.

(** [sep.join(l)]. *)
Fixpoint join (sep : string) (l : list string) : string :=
  match l with
  | [] => EmptyString
  | [x] => x
  | x :: l' => x +:+ sep +:+ join sep l'
  end.

(** [c in s]. *)
Fixpoint contains (c : ascii) (s : string) : bool :=
  match s with
  | EmptyString => false
  | String a s' => Ascii.eqb a c || contains c s'
  end.

Fixpoint all_chars (p : ascii → bool) (s : string) : bool :=
  match s with
  | EmptyString => true
  | String a s' => p a && all_chars p s'
  end.

(** [s.startswith(p)]. *)
Fixpoint startswith (p s : string) : bool :=
  match p, s with
  | EmptyString, _ => true
  | String a p', String b s' => Ascii.eqb a b && startswith p' s'
  | String _ _, EmptyString => false
  end.

(** *** [urllib.parse]

    [quote_plus(s)] with the default [safe=''] works byte by byte on the
    UTF-8 encoding: the always-safe characters (ASCII letters, digits and
    [_.-~]) are kept, a space becomes [+], every other byte becomes [%XX]
    with upper-case hexadecimal digits. *)

Definition is_unreserved (c : ascii) : bool :=
  let n := nat_of_ascii c in
  ((65 <=? n) && (n <=? 90)) || ((97 <=? n) && (n <=? 122))
  || ((48 <=? n) && (n <=? 57))
  || Ascii.eqb c "_" || Ascii.eqb c "." || Ascii.eqb c "-" || Ascii.eqb c "~".

Definition hex_digit (n : nat) : ascii :=
  match n with
  | 0 => "0" | 1 => "1" | 2 => "2" | 3 => "3" | 4 => "4" | 5 => "5"
  | 6 => "6" | 7 => "7" | 8 => "8" | 9 => "9" | 10 => "A" | 11 => "B"
  | 12 => "C" | 13 => "D" | 14 => "E" | _ => "F"
  end%char.

Definition percent_byte (c : ascii) : string :=
  let n := nat_of_ascii c in
  String "%" (String (hex_digit (n / 16)) (String (hex_digit (n mod 16)) EmptyString)).

Fixpoint quote_plus (s : string) : string :=
  match s with
  | EmptyString => EmptyString
  | String c s' =>
      if is_unreserved c then String c (quote_plus s')
      else if Ascii.eqb c " " then String "+" (quote_plus s')
      else percent_byte c +:+ quote_plus s'
  end.

(** [urlparse(url).query]: the text after the first [?] of what precedes
    the first [#] (scheme and authority contain neither character). *)
Definition urlparse_query (url : string) : string :=
  match split1 "?" (default EmptyString (head (split1 "#" url))) with
  | [_; q] => q
  | _ => EmptyString
  end.

(** [s.replace(pat, by)] for a non-empty pattern: occurrences are found
    left to right and do not overlap. [skip] counts the characters of an
    occurrence that are still to be dropped. *)
Fixpoint replace_str_from (skip : nat) (pat by_ s : string) : string :=
  match s with
  | EmptyString => EmptyString
  | String c s' =>
      match skip with
      | S k => replace_str_from k pat by_ s'
      | O =>
          if startswith pat s
          then by_ +:+ replace_str_from (String.length pat - 1) pat by_ s'
          else String c (replace_str_from O pat by_ s')
      end
  end.
Definition replace_str (pat by_ s : string) : string :=
  replace_str_from O pat by_ s.

(** [p in s] for strings. *)
Fixpoint is_substring (p s : string) : bool :=
  startswith p s ||
  match s with
  | EmptyString => false
  | String _ s' => is_substring p s'
  end.

(** *** Values

    The values that the authentication code handles: [None], booleans,
    integers, strings and dictionaries with string keys (what [json.loads]
    gives for a JSON document without arrays or fractional numbers). A
    dictionary is the list of its items, each key once. *)
#[warnings="-register-all"]
Inductive pyval :=
  | PyNone
  | PyBool (b : bool)
  | PyInt (z : Z)
  | PyStr (s : string)
  | PyDict (d : list (string * pyval)).

(** [bool(v)]. *)
Definition truthy (v : pyval) : bool :=
  match v with
  | PyNone => false
  | PyBool b => b
  | PyInt z => negb (z =? 0)%Z
  | PyStr s => nonempty s
  | PyDict d => match d with [] => false | _ :: _ => true end
  end.

(** [bool] is a subclass of [int]. *)
Definition as_int (v : pyval) : option Z :=
  match v with
  | PyInt z => Some z
  | PyBool b => Some (if b then 1 else 0)%Z
  | _ => None
  end.

(** [a < b] and [a > b]: defined between numbers and between strings. *)
Definition py_lt (a b : pyval) : result bool :=
  match as_int a, as_int b with
  | Some x, Some y => Ok (x <? y)%Z
  | _, _ =>
      match a, b with
      | PyStr s, PyStr t => Ok (String.ltb s t)
      | _, _ => Raise TypeError
      end
  end.
Definition py_gt (a b : pyval) : result bool := py_lt b a.

Fixpoint dict_get (key : string) (d : list (string * pyval)) : option pyval :=
  match d with
  | [] => None
  | (k, v) :: d' => if String.eqb k key then Some v else dict_get key d'
  end.

(** [v[key]] for a string [key]. *)
Definition getitem (v : pyval) (key : string) : result pyval :=
  match v with
  | PyDict d =>
      match dict_get key d with Some x => Ok x | None => Raise KeyError end
  | _ => Raise TypeError
  end.

(** [v.get(key)]. *)
Definition py_get (v : pyval) (key : string) : result pyval :=
  match v with
  | PyDict d => Ok (default PyNone (dict_get key d))
  | _ => Raise AttributeError
  end.

(** [key in v] for a string [key]. *)
Definition py_in (key : string) (v : pyval) : result bool :=
  match v with
  | PyDict d => Ok (bool_decide (is_Some (dict_get key d)))
  | PyStr s => Ok (is_substring key s)
  | _ => Raise TypeError
  end.

(** ["literal" + v]. *)
Definition str_concat (s : string) (v : pyval) : result string :=
  match v with
  | PyStr t => Ok (s +:+ t)
  | _ => Raise TypeError
  end.

(** [a + b]. *)
Definition py_add (a b : pyval) : result pyval :=
  match a, b with
  | PyStr s, PyStr t => Ok (PyStr (s +:+ t))
  | _, _ =>
      match as_int a, as_int b with
      | Some x, Some y => Ok (PyInt (x + y))
      | _, _ => Raise TypeError
      end
  end.

(** [v.split(".")]. *)
Definition py_split (sep : ascii) (v : pyval) : result (list string) :=
  match v with
  | PyStr s => Ok (split sep s)
  | _ => Raise AttributeError
  end.

End Py.

(** ** [paraclient/auth.py] *)

Module Auth.
Import Py.

(** A [requests.PreparedRequest], as far as the authentication code reads
    or writes it. Header names are kept with the spelling they were set
    with. *)
Record PreparedRequest := mkReq {
  method : string;
  url : string;
  headers : gmap string string;
  body : option string;
}.

Definition set_url (u : string) (r : PreparedRequest) : PreparedRequest :=
  mkReq (method r) u (headers r) (body r).
Definition set_headers (h : gmap string string) (r : PreparedRequest) : PreparedRequest :=
  mkReq (method r) (url r) h (body r).

(** [d.update(e)]: the entries of [e] win. *)
Definition update (d e : gmap string string) : gmap string string := e ∪ d.

(** The local variables of the loop of [AWSAuth.__call__]. *)
Record scan_state := mkScan {
  query : gmap string string;
  multi_valued_params : bool;
  querystring : string;
}.

Definition scan_init : scan_state := mkScan ∅ false EmptyString.

Definition key_in (key : string) (q : gmap string string) : bool :=
  bool_decide (is_Some (q !! key)).

(** One iteration of [for param in paramz] (auth.py, lines 36-47). *)
Definition scan_param (st : scan_state) (param : string) : result scan_state :=
  if nonempty param then
    let key_val := split1 "=" param in
    key ← index key_val 0;
    value ← index key_val 1;
    if negb (multi_valued_params st) && key_in key (query st) then
      Ok (mkScan (query st) true (querystring st))
    else if nonempty key && negb (key_in key (query st)) then
      let qs := if nonempty (querystring st)
                then querystring st +:+ "&" else querystring st in
      Ok (mkScan (<[key := value]> (query st)) (multi_valued_params st)
                 (qs +:+ join "=" [key; replace "+" "%20" (quote_plus value)]))
    else Ok st
  else Ok st.

Fixpoint scan_params (paramz : list string) (st : scan_state) : result scan_state :=
  match paramz with
  | [] => Ok st
  | param :: rest => st' ← scan_param st param; scan_params rest st'
  end.

(** Lines 30-47 of [AWSAuth.__call__] on the query of the request URL:
    the flag [multi_valued_params] and the canonical [querystring]. *)
Definition canonicalize (q : string) : result (bool * string) :=
  let paramz := split "&" q in
  st ← (if bool_decide (paramz ≠ []) && (0 <? length paramz)%nat
        then scan_params paramz scan_init else Ok scan_init);
  Ok (multi_valued_params st, querystring st).

Section AWSAuth.
(** The wrapped [AWSRequestsAuth] object: the headers its
    [get_aws_request_headers_handler] computes for a request. *)
Variable aws_request_headers : PreparedRequest → gmap string string.

(** [AWSRequestsAuth.__call__]: [r.headers.update(aws_headers); return r]. *)
Definition auth_call (r : PreparedRequest) : PreparedRequest :=
  set_headers (update (headers r) (aws_request_headers r)) r.

(** [AWSAuth.__call__]. The result is the request object [r] as it is
    when the call returns. *)
Definition AWSAuth_call (r : PreparedRequest) : result PreparedRequest :=
  '(multi, qs) ← canonicalize (urlparse_query (url r));
  if (multi : bool) then
    let newr := r in (* copy.deepcopy(r) *)
    u0 ← index (split "?" (url newr)) 0;
    let newr := set_url (u0 +:+ "?" +:+ qs) newr in
    let newr := auth_call newr in
    Ok (set_headers (update (headers r) (headers newr)) r)
  else
    let r := set_url (replace "+" "%20" (url r)) r in
    Ok (auth_call r).
End AWSAuth.

End Auth.

(** ** [paraclient/paraclient.py]: token state and request dispatch *)

Module Client.
Import Py Auth.

Definition DEFAULT_ENDPOINT : string := "https://paraio.com".
Definition DEFAULT_PATH : string := "/v1/".
Definition JWT_PATH : string := "/jwt_auth".

(** A [ParaClient] object. The class gives the three token attributes the
    default [None]; an object has its own attribute only once it has been
    assigned, and [del] removes it again. [None] below means that the
    object has no attribute of its own, so that reading it gives the class
    default. *)
Record ParaClient := mkClient {
  endpoint : string;
  accessKey : pyval;
  secretKey : pyval;
  path : string;
  tokenKey : option pyval;
  tokenKeyExpires : option pyval;
  tokenKeyNextRefresh : option pyval;
}.

(** [ParaClient(accessKey, secretKey)]. *)
Definition init (accessKey secretKey : pyval) : ParaClient :=
  mkClient DEFAULT_ENDPOINT accessKey secretKey DEFAULT_PATH None None None.

Definition set_path (p : string) (c : ParaClient) : ParaClient :=
  mkClient (endpoint c) (accessKey c) (secretKey c) p
    (tokenKey c) (tokenKeyExpires c) (tokenKeyNextRefresh c).
Definition set_tokenKey (v : option pyval) (c : ParaClient) : ParaClient :=
  mkClient (endpoint c) (accessKey c) (secretKey c) (path c)
    v (tokenKeyExpires c) (tokenKeyNextRefresh c).
Definition set_tokenKeyExpires (v : option pyval) (c : ParaClient) : ParaClient :=
  mkClient (endpoint c) (accessKey c) (secretKey c) (path c)
    (tokenKey c) v (tokenKeyNextRefresh c).
Definition set_tokenKeyNextRefresh (v : option pyval) (c : ParaClient) : ParaClient :=
  mkClient (endpoint c) (accessKey c) (secretKey c) (path c)
    (tokenKey c) (tokenKeyExpires c) v.

(** Reading an attribute: the object's own value, else the class default. *)
Definition attr (a : option pyval) : pyval := default PyNone a.

(** A [requests.Response]: [json] is what [res.json()] returns, [None]
    when the body is not JSON. *)
Record Response := mkResponse {
  status_code : Z;
  json : option pyval;
  text : string;
  reason : string;
}.

(** [bool(res)] is [res.ok]: no 4xx or 5xx status. *)
Definition ok (res : Response) : bool :=
  negb ((400 <=? status_code res)%Z && (status_code res <? 600)%Z).

(** Everything a call can read or change: the client object, the clock
    in milliseconds, the requests handed to the network so far (oldest
    first) and the messages given to [logging.error]. *)
Record World := mkWorld {
  client : ParaClient;
  clock : Z;
  sent : list PreparedRequest;
  errlog : list string;
}.

Definition with_client (c : ParaClient) (w : World) : World :=
  mkWorld c (clock w) (sent w) (errlog w).

(** Computations that read and write the world and may raise; the world
    at the time of the exception is kept. *)
Definition M (A : Type) : Type := World → result A * World.

#[global] Instance M_ret : MRet M := λ A a w, (Ok a, w).
#[global] Instance M_bind : MBind M := λ A B f m w,
  match m w with
  | (Ok a, w') => f a w'
  | (Raise e, w') => (Raise e, w')
  end.

Definition raise {A} (e : PyExn) : M A := λ w, (Raise e, w).
Definition lift {A} (r : result A) : M A := λ w, (r, w).
Definition self : M ParaClient := λ w, (Ok (client w), w).
Definition update_self (f : ParaClient → ParaClient) : M unit :=
  λ w, (Ok (), with_client (f (client w)) w).
Definition logging_error (msg : string) : M unit :=
  λ w, (Ok (), mkWorld (client w) (clock w) (sent w) (errlog w ++ [msg])).

(** [int(round(time.time() * 1000))]. *)
Definition time_ms : M Z := λ w, (Ok (clock w), w).

(** [try: m except e: handler]: the handler runs for an exception that
    is an instance of [e]. *)
Definition try_except {A} (m : M A) (e : PyExn) (handler : M A) : M A :=
  λ w, match m w with
       | (Raise e', w') => if exn_isinstance e' e then handler w' else (Raise e', w')
       | r => r
       end.

(** [del self.attr]. *)
Definition del_attr (get : ParaClient → option pyval)
    (set : option pyval → ParaClient → ParaClient) : M unit :=
  c ← self;
  match get c with
  | Some _ => update_self (set None)
  | None => raise AttributeError
  end.

Definition getEndpoint : M string :=
  c ← self;
  if negb (nonempty (endpoint c)) then mret DEFAULT_ENDPOINT
  else mret (endpoint c).

Definition endswith_slash (s : string) : bool :=
  match last (String.list_ascii_of_string s) with
  | Some c => Ascii.eqb c "/"
  | None => false
  end.

Definition getApiPath : M string :=
  c ← self;
  if negb (nonempty (path c)) then mret DEFAULT_ENDPOINT
  else
    (if negb (endswith_slash (path c))
     then update_self (set_path (path c +:+ "/")) else mret ());;
    c ← self; mret (path c).

Definition getAccessToken : M pyval := c ← self; mret (attr (tokenKey c)).

Definition clearAccessToken : M unit :=
  del_attr tokenKey set_tokenKey;;
  del_attr tokenKeyExpires set_tokenKeyExpires;;
  del_attr tokenKeyNextRefresh set_tokenKeyNextRefresh.

Definition signOut : M unit := clearAccessToken.

(** [resourcepath] is a string here; the [None] case of the source is the
    same as the empty string. *)
Definition getFullPath (resourcepath : string) : M string :=
  if nonempty resourcepath && startswith JWT_PATH resourcepath
  then mret resourcepath
  else
    let resourcepath :=
      match resourcepath with
      | EmptyString => EmptyString
      | String c rest => if Ascii.eqb c "/" then rest else resourcepath
      end in
    p ← getApiPath; mret (p +:+ resourcepath).

Section Environment.
(** [json.loads(base64.b64decode(s).decode("utf-8"))]. *)
Variable b64_json_loads : string → result pyval.
(** How [requests] puts [params] into the URL. *)
Variable prepare_url : string → list (string * string) → string.
(** The headers that [AWSRequestsAuth], built with the given access key,
    secret key and host (region [us-east-1], service [para]), computes
    for a request. *)
Variable aws_request_headers :
  pyval → pyval → string → PreparedRequest → gmap string string.
(** The network: the response to a request, given the requests sent
    before it; [None] when the exchange fails ([RequestException]). *)
Variable network : list PreparedRequest → PreparedRequest → option Response.

Definition setAccessToken (token : pyval) : M unit :=
  (if truthy token then
     parts ← lift (py_split "." token);
     part ← lift (index parts 1);
     decoded ← lift (b64_json_loads (part +:+ "=="));
     has_exp ← lift (if truthy decoded then py_in "exp" decoded
                     else Ok false);
     if (has_exp : bool) then
       exp ← lift (py_get decoded "exp");
       update_self (set_tokenKeyExpires (Some exp));;
       refresh ← lift (py_get decoded "refresh");
       update_self (set_tokenKeyNextRefresh (Some refresh))
     else
       del_attr tokenKeyExpires set_tokenKeyExpires;;
       del_attr tokenKeyNextRefresh set_tokenKeyNextRefresh
   else mret ());;
  update_self (set_tokenKey (Some token)).

(** Handing a prepared request to the network. *)
Definition send (r : PreparedRequest) : M Response :=
  λ w,
    let w' := mkWorld (client w) (clock w) (sent w ++ [r]) (errlog w) in
    match network (sent w) r with
    | Some res => (Ok res, w')
    | None => (Raise RequestException, w')
    end.

(** [requests.request(method, url, auth=..., params=..., headers=...,
    data=...)]: the request is prepared, passed through [auth] when
    there is one, and handed to the network. *)
Definition requests_request (method url : string)
    (auth : option (PreparedRequest → result PreparedRequest))
    (params : list (string * string)) (headers : gmap string string)
    (data : option string) : M Response :=
  let prepared := mkReq method (prepare_url url params) headers data in
  r ← lift (match auth with Some a => a prepared | None => Ok prepared end);
  send r.

(** [getEntity(res)] with the default [returnRawJSON=True], which is how
    the token code calls it. *)
Definition getEntity (res : option Response) : M pyval :=
  match res with
  | Some res =>
      if ok res then
        let code := status_code res in
        if ((code =? 200) || (code =? 201) || (code =? 304))%Z then
          match json res with
          | Some body => mret (if truthy body then body else PyDict [])
          | None => mret (PyStr (text res))
          end
        else if (negb (code =? 404) || negb (code =? 304)
                 || negb (code =? 204))%Z then
          error ← lift (match json res with
                        | Some body => Ok body
                        | None => Raise JSONDecodeError
                        end);
          has_code ← lift (if truthy error then getitem error "code"
                           else Ok error);
          (if truthy has_code then
             m ← lift (getitem error "message");
             msg ← lift (if truthy m then getitem error "message"
                         else Ok (PyStr "error"));
             msg ← lift (py_add msg (PyStr " - "));
             c ← lift (getitem error "code");
             msg ← lift (py_add msg c);
             match msg with
             | PyStr s => logging_error s
             | _ => mret ()
             end
           else
             _ ← lift (py_add (PyInt code) (PyStr " - "));
             mret ());;
          mret PyNone
        else mret PyNone
      else mret PyNone
  | None => mret PyNone
  end.

Definition invokeSignedRequest_body (refreshToken : M pyval)
    (httpMethod endpointURL reqPath : string)
    (headers : gmap string string) (params : list (string * string))
    (jsonEntity : option string) : M (option Response) :=
  c ← self;
  if negb (truthy (accessKey c)) then
    logging_error ("Blank access key: " +:+ httpMethod +:+ " " +:+ reqPath);;
    mret None
  else
    let do_sign := negb (truthy (attr (tokenKey c))) in
    '(headers, do_sign) ←
      (if negb (truthy (secretKey c)) && negb (truthy (attr (tokenKey c)))
       then
         v ← lift (str_concat "Anonymous " (accessKey c));
         mret (<["Authorization" := v]> headers, false)
       else mret (headers, do_sign));
    headers ←
      (if truthy (attr (tokenKey c)) then
         (if negb (String.eqb httpMethod "GET" && String.eqb reqPath JWT_PATH)
          then _ ← refreshToken; mret () else mret ());;
         c ← self;
         v ← lift (str_concat "Bearer " (attr (tokenKey c)));
         mret (<["Authorization" := v]> headers)
       else mret headers);
    try_except
      (if (do_sign : bool) then
         c ← self;
         e ← getEndpoint;
         let host := replace_str "https://" "" (replace_str "http://" "" e) in
         let auth := aws_request_headers (accessKey c) (secretKey c) host in
         res ← requests_request httpMethod (endpointURL +:+ reqPath)
                 (Some (AWSAuth_call auth)) params headers jsonEntity;
         mret (Some res)
       else
         res ← requests_request httpMethod (endpointURL +:+ reqPath)
                 None params headers jsonEntity;
         mret (Some res))
      RequestException
      (logging_error ("Request " +:+ httpMethod +:+ " " +:+ reqPath
                      +:+ " failed!");;
       mret None).

Definition invokeGet_body
    (invokeSignedRequest : string → string → string → gmap string string →
       list (string * string) → option string → M (option Response))
    (resourcePath : string) (params : list (string * string))
    : M (option Response) :=
  e ← getEndpoint;
  p ← getFullPath resourcePath;
  invokeSignedRequest "GET" e p ∅ params None.

Definition refreshToken_body
    (invokeGet : string → list (string * string) → M (option Response))
    : M pyval :=
  t ← time_ms;
  let now := PyInt t in
  c ← self;
  let expires := attr (tokenKeyExpires c) in
  let nextRefresh := attr (tokenKeyNextRefresh c) in
  notexpired ← lift (if truthy expires
                     then PyBool <$> py_gt expires now else Ok expires);
  canrefresh ← lift (if truthy nextRefresh then
                       early ← py_lt nextRefresh now;
                       if (early : bool) then Ok (PyBool true)
                       else PyBool <$> py_gt nextRefresh expires
                     else Ok nextRefresh);
  if truthy (attr (tokenKey c)) && truthy notexpired && truthy canrefresh then
    res ← invokeGet JWT_PATH [];
    result ← getEntity res;
    complete ← lift (if truthy result then
                       user ← getitem result "user";
                       if truthy user then getitem result "jwt" else Ok user
                     else Ok result);
    if truthy complete then
      jwt_data ← lift (getitem result "jwt");
      v ← lift (getitem jwt_data "access_token");
      update_self (set_tokenKey (Some v));;
      v ← lift (getitem jwt_data "expires");
      update_self (set_tokenKeyExpires (Some v));;
      v ← lift (getitem jwt_data "refresh");
      update_self (set_tokenKeyNextRefresh (Some v));;
      mret (PyBool true)
    else
      clearAccessToken;;
      mret (PyBool false)
  else mret (PyBool false).

(** The three methods call each other; [depth] bounds how deep the calls
    may nest. *)
Fixpoint invokeSignedRequest (depth : nat)
    (httpMethod endpointURL reqPath : string)
    (headers : gmap string string) (params : list (string * string))
    (jsonEntity : option string) : M (option Response) :=
  match depth with
  | O => raise RecursionError
  | S d =>
      invokeSignedRequest_body
        (refreshToken_body (invokeGet_body (invokeSignedRequest d)))
        httpMethod endpointURL reqPath headers params jsonEntity
  end.

Definition invokeGet (depth : nat) :=
  invokeGet_body (invokeSignedRequest depth).
Definition refreshToken (depth : nat) : M pyval :=
  refreshToken_body (invokeGet depth).

End Environment.

End Client.

(** ** A small concrete environment for examples *)

Module Demo.
Import Py Auth Client.

(** Decodes the two payloads used in the examples:
    [{"exp": 9999999999}] and [{}]; anything else is not valid base64. *)
Definition b64_json_loads (s : string) : result pyval :=
  if String.eqb s "eyJleHAiOjk5OTk5OTk5OTl9==" then
    Ok (PyDict [("exp", PyInt 9999999999)])
  else if String.eqb s "e30==" then Ok (PyDict [])
  else Raise ValueError.

Definition prepare_url (url : string) (params : list (string * string)) : string :=
  match params with
  | [] => url
  | _ => url +:+ (if contains "?" url then "&" else "?")
           +:+ join "&" (map (λ kv, join "=" [quote_plus kv.1; quote_plus kv.2]) params)
  end.

Definition aws_request_headers (access secret : pyval) (host : string)
    (r : PreparedRequest) : gmap string string :=
  {[ "Authorization" := "AWS4-HMAC-SHA256 " +:+ method r +:+ " " +:+ url r ]}.

Definition jwt_body (token : string) (expires refresh : Z) : pyval :=
  PyDict [("user", PyDict [("id", PyStr "u1")]);
          ("jwt", PyDict [("access_token", PyStr token);
                          ("expires", PyInt expires);
                          ("refresh", PyInt refresh)])].

(** A server that rejects every request. *)
Definition rejecting (_ : list PreparedRequest) (_ : PreparedRequest)
    : option Response :=
  Some (mkResponse 401 None "" "Unauthorized").

(** A server that answers [/jwt_auth] with a new token and everything
    else with an empty object. *)
Definition renewing (_ : list PreparedRequest) (r : PreparedRequest)
    : option Response :=
  if String.eqb (url r) "https://paraio.com/jwt_auth" then
    Some (mkResponse 200 (Some (jwt_body "new.token" 9000 5000)) "" "OK")
  else Some (mkResponse 200 (Some (PyDict [])) "{}" "OK").

(** A server whose [/jwt_auth] answer lacks the [user] and [jwt] fields. *)
Definition incomplete (_ : list PreparedRequest) (r : PreparedRequest)
    : option Response :=
  Some (mkResponse 200 (Some (PyDict [("status", PyStr "ok")])) "" "OK").

Definition signed_in (token : string) (expires refresh : Z) : ParaClient :=
  mkClient DEFAULT_ENDPOINT (PyStr "app:test") (PyStr "secret") DEFAULT_PATH
    (Some (PyStr token)) (Some (PyInt expires)) (Some (PyInt refresh)).

Definition world (c : ParaClient) (now : Z) : World := mkWorld c now [] [].

Definition dispatch network :=
  invokeSignedRequest prepare_url aws_request_headers network.

(** A signer whose one header names the URL it was given. *)
Definition echo_signer (r : PreparedRequest) : gmap string string :=
  {[ "Authorization" := "SIGNED " +:+ url r ]}.

(** A client that never signed in, and signed-in clients at time 1000:
    one whose next-refresh time has passed, one whose next-refresh time
    is now. Both tokens expire at 2000. *)
Definition fresh : ParaClient := init (PyStr "app:test") (PyStr "secret").
Definition w_fresh : World := world fresh 1000.
Definition w_due : World := world (signed_in "old.token" 2000 500) 1000.
Definition w_on_the_dot : World := world (signed_in "old.token" 2000 1000) 1000.

(** A signed-in client whose access key is empty. *)
Definition w_blank : World :=
  world (mkClient DEFAULT_ENDPOINT (PyStr "") (PyStr "secret") DEFAULT_PATH
           (Some (PyStr "old.token")) (Some (PyInt 2000)) (Some (PyInt 500)))
    1000.

Definition refresh_get : PreparedRequest :=
  mkReq "GET" "https://paraio.com/jwt_auth"
    {[ "Authorization" := "Bearer old.token" ]} None.

End Demo.

(** ** Vocabulary for the canonicalisation properties *)

Module AuthSpec.
Import Py Auth.

(** The encoding applied to each kept value (auth.py, line 47); the same
    expression is [ParaClient.urlenc]. *)
Definition canonical_value (value : string) : string :=
  replace "+" "%20" (quote_plus value).

(** A parameter as it is written in a query, and as it is written in the
    canonical string. *)
Definition raw_pair (kv : string * string) : string := kv.1 +:+ "=" +:+ kv.2.
Definition pair_str (kv : string * string) : string :=
  kv.1 +:+ "=" +:+ canonical_value kv.2.

(** Every parameter of the query is empty or has the form [key=value]. *)
Definition well_formed_param (p : string) : bool :=
  negb (nonempty p) || contains "=" p.
Definition well_formed (q : string) : bool :=
  forallb well_formed_param (split "&" q).

(** Every value of the query consists of unreserved characters only. *)
Definition plain_param (p : string) : bool :=
  match split1 "=" p with
  | [_; v] => all_chars is_unreserved v
  | _ => true
  end.
Definition plain_values (q : string) : bool :=
  forallb plain_param (split "&" q).

(** The characters a canonical value is made of. *)
Definition canonical_char (c : ascii) : bool :=
  is_unreserved c || Ascii.eqb c "%".

Definition good_key (k : string) : Prop :=
  nonempty k = true ∧ contains "=" k = false ∧ contains "&" k = false.

(** The loop invariant: [L] lists the kept (key, value) pairs in order. *)
Record kept_inv (st : scan_state) (L : list (string * string)) : Prop := {
  inv_qs : querystring st = join "&" (map pair_str L);
  inv_dom : ∀ k, is_Some (query st !! k) ↔ k ∈ L.*1;
  inv_nodup : NoDup L.*1;
  inv_keys : Forall good_key L.*1;
}.

End AuthSpec.

(** ** Vocabulary for the token and dispatch properties *)

Module ClientSpec.
Import Py Auth Client.

(** All three token attributes are unset. *)
Definition token_cleared (c : ParaClient) : Prop :=
  tokenKey c = None ∧ tokenKeyExpires c = None ∧ tokenKeyNextRefresh c = None.

(** A bearer token is set: the token attribute reads as a non-empty
    string [tok]. *)
Definition bearer (c : ParaClient) (tok : string) : Prop :=
  attr (tokenKey c) = PyStr tok ∧ nonempty tok = true.

(** The token attributes hold what the class declares for them: a string
    or [None] for the token, an integer or [None] for the two times. *)
Definition is_str_or_none (v : pyval) : bool :=
  match v with PyNone | PyStr _ => true | _ => false end.
Definition is_int_or_none (v : pyval) : bool :=
  match v with PyNone | PyInt _ => true | _ => false end.
Definition well_typed (c : ParaClient) : bool :=
  is_str_or_none (attr (tokenKey c))
  && is_int_or_none (attr (tokenKeyExpires c))
  && is_int_or_none (attr (tokenKeyNextRefresh c)).

(** When [refreshToken] asks the server for a new token, for a well-typed
    token state: the times [0] and [None] both count as unset, and the
    next-refresh time has to be strictly in the past, unless it lies after
    the expiry. *)
Definition refresh_due (c : ParaClient) (now : Z) : bool :=
  truthy (attr (tokenKey c)) &&
  match attr (tokenKeyExpires c), attr (tokenKeyNextRefresh c) with
  | PyInt e, PyInt n =>
      (negb (e =? 0) && (now <? e) && negb (n =? 0)
       && ((n <? now) || (e <? n)))%Z
  | _, _ => false
  end.

(** The condition in the words of the specification: a token is set, it
    is not expired ([now < expires]), and the next-refresh time is set
    with [now >= nextRefresh] or [nextRefresh > expires]. *)
Definition refresh_due_spec (c : ParaClient) (now : Z) : bool :=
  truthy (attr (tokenKey c)) &&
  match attr (tokenKeyExpires c), attr (tokenKeyNextRefresh c) with
  | PyInt e, PyInt n => ((now <? e) && ((n <=? now) || (e <? n)))%Z
  | _, _ => false
  end.

(** The text of the token, when it is a string. *)
Definition token_text (c : ParaClient) : string :=
  match attr (tokenKey c) with PyStr s => s | _ => EmptyString end.

(** The client with its three token attributes removed. *)
Definition clear_token (c : ParaClient) : ParaClient :=
  set_tokenKeyNextRefresh None (set_tokenKeyExpires None (set_tokenKey None c)).

(** A computation that hands nothing to the network. *)
Definition keeps_sent {A} (m : M A) : Prop := ∀ w, sent (m w).2 = sent w.

Definition endpoint_of (c : ParaClient) : string :=
  if nonempty (endpoint c) then endpoint c else DEFAULT_ENDPOINT.

(** The host given to the signer (paraclient.py, line 266). *)
Definition host_of (c : ParaClient) : string :=
  replace_str "https://" "" (replace_str "http://" "" (endpoint_of c)).

Definition add_sent (r : PreparedRequest) (w : World) : World :=
  mkWorld (client w) (clock w) (sent w ++ [r]) (errlog w).
Definition add_error (msg : string) (w : World) : World :=
  mkWorld (client w) (clock w) (sent w) (errlog w ++ [msg]).

Section Environment.
Variable prepare_url : string → list (string * string) → string.
Variable aws_request_headers :
  pyval → pyval → string → PreparedRequest → gmap string string.
Variable network : list PreparedRequest → PreparedRequest → option Response.

(** The request that asks for a new token. *)
Definition refresh_request (c : ParaClient) (tok : string) : PreparedRequest :=
  mkReq "GET" (prepare_url (endpoint_of c +:+ JWT_PATH) [])
    {[ "Authorization" := "Bearer " +:+ tok ]} None.

(** Sending a request without a signature: what comes back, and the
    world afterwards. *)
Definition exchange (httpMethod reqPath : string) (r : PreparedRequest)
    (w : World) : result (option Response) * World :=
  match network (sent w) r with
  | Some res => (Ok (Some res), add_sent r w)
  | None =>
      (Ok None,
       add_error ("Request " +:+ httpMethod +:+ " " +:+ reqPath +:+ " failed!")
         (add_sent r w))
  end.

(** What a call with a bearer token does once the question of the
    refresh is settled: the token held at that moment goes into the
    [Authorization] header and the request is sent without a signature. *)
Definition bearer_call (httpMethod endpointURL reqPath : string)
    (headers : gmap string string) (params : list (string * string))
    (jsonEntity : option string) : M (option Response) :=
  c ← self;
  v ← lift (str_concat "Bearer " (attr (tokenKey c)));
  exchange httpMethod reqPath
    (mkReq httpMethod (prepare_url (endpointURL +:+ reqPath) params)
       (<["Authorization" := v]> headers) jsonEntity).
End Environment.

End ClientSpec.

(** ** More of [paraclient/paraclient.py] and [paraclient/paraobject.py] *)

Module More.
Import Py Auth Client.

(** [ParaClient.urlenc]; [ParaObject.urlenc] has the same body. *)
Definition urlenc (s : string) : string := replace "+" "%20" (quote_plus s).

(** [urlenc] of a value that need not be a string: [quote_plus] raises
    [TypeError] on anything that is neither [str] nor [bytes]. *)
Definition py_urlenc (v : pyval) : result string :=
  match v with
  | PyStr s => Ok (urlenc s)
  | _ => Raise TypeError
  end.

Definition set_secretKey (v : pyval) (c : ParaClient) : ParaClient :=
  mkClient (endpoint c) (accessKey c) v (path c)
    (tokenKey c) (tokenKeyExpires c) (tokenKeyNextRefresh c).

(** *** [ParaObject]

    The fields of a [ParaObject] live in its [__dict__], which is what is
    modelled: the list of its items, each key once. *)
Definition ParaObject : Type := list (string * pyval).

(** [d[k] = v]. *)
Fixpoint dict_set (k : string) (v : pyval) (d : list (string * pyval))
    : list (string * pyval) :=
  match d with
  | [] => [(k, v)]
  | (k', v') :: d' =>
      if String.eqb k' k then (k', v) :: d' else (k', v') :: dict_set k v d'
  end.

(** [d.update(e)] for a dictionary [e]. *)
Definition dict_update (d e : list (string * pyval)) : list (string * pyval) :=
  fold_left (λ acc kv, dict_set kv.1 kv.2 acc) e d.

(** [ParaObject(id_, type_)]. *)
Definition ParaObject_new (id_ type_ : pyval) : M ParaObject :=
  t ← time_ms;
  mret [("id", id_); ("type", type_); ("timestamp", PyInt t)].

(** [obj.setFields(data)], that is [self.__dict__.update(data)]: a string
    is taken as a sequence of pairs, which no character is. *)
Definition setFields (o : ParaObject) (data : pyval) : result ParaObject :=
  match data with
  | PyDict e => Ok (dict_update o e)
  | PyStr s => if nonempty s then Raise ValueError else Ok o
  | _ => Raise TypeError
  end.

(** [obj.type] falls back to the class default; [obj.id] has none. *)
Definition obj_type (o : ParaObject) : pyval :=
  default (PyStr "sysprop") (dict_get "type" o).
Definition obj_id (o : ParaObject) : result pyval :=
  match dict_get "id" o with
  | Some v => Ok v
  | None => Raise AttributeError
  end.

Definition getObjectURI (o : ParaObject) : result string :=
  t ← py_urlenc (obj_type o);
  let u := "/" +:+ t in
  i ← obj_id o;
  if truthy i then
    e ← py_urlenc i;
    Ok (u +:+ "/" +:+ e)
  else Ok u.

Section Environment.
Variable prepare_url : string → list (string * string) → string.
Variable aws_request_headers :
  pyval → pyval → string → PreparedRequest → gmap string string.
Variable network : list PreparedRequest → PreparedRequest → option Response.
(** [json.dumps] on the values modelled here. *)
Variable json_dumps : pyval → string.

Definition invokePost (depth : nat) (resourcePath : string)
    (entity : option string) : M (option Response) :=
  e ← getEndpoint;
  p ← getFullPath resourcePath;
  invokeSignedRequest prepare_url aws_request_headers network depth
    "POST" e p ∅ [] entity.

Definition invokePut (depth : nat) (resourcePath : string)
    (entity : option string) : M (option Response) :=
  e ← getEndpoint;
  p ← getFullPath resourcePath;
  invokeSignedRequest prepare_url aws_request_headers network depth
    "PUT" e p ∅ [] entity.

Definition invokePatch (depth : nat) (resourcePath : string)
    (entity : option string) : M (option Response) :=
  e ← getEndpoint;
  p ← getFullPath resourcePath;
  invokeSignedRequest prepare_url aws_request_headers network depth
    "PATCH" e p ∅ [] entity.

Definition invokeDelete (depth : nat) (resourcePath : string)
    (params : list (string * string)) : M (option Response) :=
  e ← getEndpoint;
  p ← getFullPath resourcePath;
  invokeSignedRequest prepare_url aws_request_headers network depth
    "DELETE" e p ∅ params None.

Definition signIn (depth : nat) (provider providertoken : string)
    (rememberjwt : bool) : M (option ParaObject) :=
  if negb (nonempty provider) || negb (nonempty providertoken) then mret None
  else
    c ← self;
    let credentials :=
      PyDict [("appid", accessKey c); ("provider", PyStr provider);
              ("token", PyStr providertoken)] in
    res ← invokePost depth JWT_PATH (Some (json_dumps credentials));
    result ← getEntity res;
    complete ← lift (if truthy result then
                       user ← getitem result "user";
                       if truthy user then getitem result "jwt" else Ok user
                     else Ok result);
    if truthy complete then
      jwt_data ← lift (getitem result "jwt");
      (if rememberjwt then
         v ← lift (getitem jwt_data "access_token");
         update_self (set_tokenKey (Some v));;
         v ← lift (getitem jwt_data "expires");
         update_self (set_tokenKeyExpires (Some v));;
         v ← lift (getitem jwt_data "refresh");
         update_self (set_tokenKeyNextRefresh (Some v))
       else mret ());;
      obj ← ParaObject_new PyNone (PyStr "sysprop");
      user ← lift (getitem result "user");
      obj ← lift (setFields obj user);
      mret (Some obj)
    else
      clearAccessToken;;
      mret None.

Definition revokeAllTokens (depth : nat) : M bool :=
  res ← invokeDelete depth JWT_PATH [];
  r ← getEntity res;
  mret (match r with PyNone => false | _ => true end).

Definition newKeys (depth : nat) : M pyval :=
  res ← invokePost depth "_newkeys" None;
  keys ← getEntity res;
  has_secret ← lift (if truthy keys then getitem keys "secretKey" else Ok keys);
  (if truthy has_secret then
     v ← lift (getitem keys "secretKey");
     update_self (set_secretKey v)
   else mret ());;
  mret keys.

End Environment.

End More.

(** ** Vocabulary for the further properties *)

Module MoreSpec.
Import Py Auth Client AuthSpec ClientSpec More.

(** What [urlenc] writes for one character. *)
Definition enc_char (c : ascii) : string :=
  if is_unreserved c then String c EmptyString else percent_byte c.

(** The value of a hexadecimal digit as [urlenc] writes it. *)
Definition hex_val (c : ascii) : nat :=
  let n := nat_of_ascii c in if n <? 58 then n - 48 else n - 55.

(** The key and value of a parameter that the loop of [AWSAuth.__call__]
    looks at: the parameter has an [=] and the key is not empty. *)
Definition parse_param (p : string) : option (string * string) :=
  match split1 "=" p with
  | [k; v] => if nonempty k then Some (k, v) else None
  | _ => None
  end.
Definition pairs_of (q : string) : list (string * string) :=
  omap parse_param (split "&" q).

(** The pairs whose key is not in [seen] and has not occurred before. *)
Fixpoint first_occurrences (seen : list string) (l : list (string * string))
    : list (string * string) :=
  match l with
  | [] => []
  | (k, v) :: l' =>
      if bool_decide (k ∈ seen) then first_occurrences seen l'
      else (k, v) :: first_occurrences (seen ++ [k]) l'
  end.

(** Some key is in [seen] or occurs twice. *)
Fixpoint repeats (seen : list string) (l : list (string * string)) : bool :=
  match l with
  | [] => false
  | (k, v) :: l' =>
      if bool_decide (k ∈ seen) then true else repeats (seen ++ [k]) l'
  end.

(** The parts of the client that are not token state. *)
Definition settings (c : ParaClient)
    : string * pyval * pyval * string :=
  (endpoint c, accessKey c, secretKey c, path c).

(** The token states, among the well-typed ones, on which the tests of
    [refreshToken] compare an integer with [None]: no expiry, and a
    next-refresh time that is not in the past. *)
Definition refresh_compares_none (c : ParaClient) (now : Z) : bool :=
  match attr (tokenKeyExpires c), attr (tokenKeyNextRefresh c) with
  | PyNone, PyInt n => (negb (n =? 0) && negb (n <? now))%Z
  | _, _ => false
  end.

(** A computation that does nothing to the world but add to the log. *)
Definition only_logs {A} (m : M A) : Prop :=
  ∀ w, ∃ l, (m w).2 = mkWorld (client w) (clock w) (sent w) (errlog w ++ l).

(** An exception that is not a [RequestException]. *)
Definition local_exn (e : PyExn) : Prop :=
  exn_isinstance e RequestException = false.

(** An exception that is not the one of a failed exchange: among the
    instances of [RequestException] it can only be the
    [JSONDecodeError] of [res.json()]. *)
Definition not_transport (e : PyExn) : Prop := e ≠ RequestException.

(** A result that raises exceptions in [P] only. *)
Definition raises_only {A} (P : PyExn → Prop) (r : result A) : Prop :=
  ∀ e, r = Raise e → P e.

(** A computation that leaves the settings and the clock alone, only adds
    to what has been sent and logged, sends at most [n] requests, and
    raises exceptions in [P] only. *)
Definition frame {A} (P : PyExn → Prop) (n : nat) (m : M A) : Prop :=
  ∀ w, settings (client (m w).2) = settings (client w)
     ∧ clock (m w).2 = clock w
     ∧ (∃ l, sent (m w).2 = sent w ++ l ∧ length l ≤ n)
     ∧ (∃ l, errlog (m w).2 = errlog w ++ l)
     ∧ raises_only P (m w).1.

(** A server that answers every request with [204 No Content]. *)
Definition no_content (_ : list PreparedRequest) (_ : PreparedRequest)
    : option Response :=
  Some (mkResponse 204 None "" "No Content").

End MoreSpec.

(** ** Vocabulary for the signing properties *)

Module SignSpec.
Import Py Auth AuthSpec MoreSpec.

(** A key with a non-empty name occurs in two parameters of the query. *)
Definition has_repeated_key (q : string) : bool :=
  negb (bool_decide (NoDup (pairs_of q).*1)).

(** The canonical string in the words of the specification: the
    parameters that have a non-empty key, every key once, with the value
    of its first occurrence re-encoded, in the order of the first
    occurrences, with [&] in between. *)
Definition canonical_string (q : string) : string :=
  join "&" (map pair_str (first_occurrences [] (pairs_of q))).

(** The request that the signer is given: with a repeated key, a copy
    whose URL is the part of the URL before its first [?], then [?], then
    the canonical string; otherwise the request with every [+] of its URL
    replaced by [%20]. *)
Definition signing_view (r : PreparedRequest) : PreparedRequest :=
  let q := urlparse_query (url r) in
  if has_repeated_key q then
    set_url (default EmptyString (head (split "?" (url r)))
             +:+ "?" +:+ canonical_string q) r
  else set_url (replace "+" "%20" (url r)) r.

(** The request that leaves: the headers that the signer computes for
    its view are added; with a repeated key the URL is the original one,
    otherwise the one of the view. *)
Definition signed_request (aws : PreparedRequest → gmap string string)
    (r : PreparedRequest) : PreparedRequest :=
  set_headers (update (headers r) (aws (signing_view r)))
    (if has_repeated_key (urlparse_query (url r)) then r
     else signing_view r).

End SignSpec.

(** ** Facts about the string functions *)

Module PyFacts.
Import Py.

Lemma append_cons x (a b : string) : String x a +:+ b = String x (a +:+ b).
Proof. reflexivity. Qed.

Lemma append_empty_l (b : string) : EmptyString +:+ b = b.
Proof. reflexivity. Qed.

Lemma append_assoc (a b c : string) : (a +:+ b) +:+ c = a +:+ b +:+ c.
Proof.
  induction a as [|x a IH]; [done |]. by rewrite !append_cons, IH.
Qed.

Lemma append_empty_r (a : string) : a +:+ EmptyString = a.
Proof. induction a as [|x a IH]; [done |]. by rewrite append_cons, IH. Qed.

Lemma nonempty_append_r (a b : string) :
  nonempty b = true → nonempty (a +:+ b) = true.
Proof. by destruct a. Qed.

Lemma contains_append c (a b : string) :
  contains c (a +:+ b) = contains c a || contains c b.
Proof.
  induction a as [|x a IH]; [done |].
  rewrite append_cons. simpl. by rewrite IH, orb_assoc.
Qed.

Lemma all_chars_append p (a b : string) :
  all_chars p (a +:+ b) = all_chars p a && all_chars p b.
Proof.
  induction a as [|x a IH]; [done |].
  rewrite append_cons. simpl. by rewrite IH, andb_assoc.
Qed.

Lemma all_chars_not_contains p c (s : string) :
  p c = false → all_chars p s = true → contains c s = false.
Proof.
  intros Hc. induction s as [|x s IH]; simpl; [done |].
  intros [Hx Hs]%andb_true_iff. rewrite (IH Hs), orb_false_r.
  destruct (Ascii.eqb_spec x c) as [->|]; [congruence | done].
Qed.

(** *** [split] *)

Lemma split_not_nil sep s : split sep s ≠ [].
Proof.
  destruct s as [|c s]; simpl; [done |].
  destruct (Ascii.eqb c sep); [done |]. by destruct (split sep s).
Qed.

Lemma split_no_sep sep s : Forall (λ p, contains sep p = false) (split sep s).
Proof.
  induction s as [|c s IH]; simpl; [by repeat constructor |].
  destruct (Ascii.eqb_spec c sep) as [->|Hne].
  - by constructor.
  - destruct (split sep s) as [|h t] eqn:E; [by destruct (split_not_nil sep s)|].
    inversion_clear IH as [|?? Hh Ht]. constructor; [|done]. simpl.
    rewrite Hh. by destruct (Ascii.eqb_spec c sep).
Qed.

Lemma split_no_sep_id sep s : contains sep s = false → split sep s = [s].
Proof.
  induction s as [|c s IH]; simpl; [done |].
  destruct (Ascii.eqb c sep); simpl; [done |]. intros H. by rewrite (IH H).
Qed.

Lemma split_append_sep sep a b :
  contains sep a = false →
  split sep (a +:+ String sep b) = a :: split sep b.
Proof.
  induction a as [|c a IH]; rewrite ?append_cons, ?append_empty_l; simpl.
  - by rewrite Ascii.eqb_refl.
  - destruct (Ascii.eqb c sep); simpl; [done |]. intros H. by rewrite (IH H).
Qed.

Lemma split_join sep (l : list string) :
  l ≠ [] → Forall (λ p, contains sep p = false) l →
  split sep (join (String sep EmptyString) l) = l.
Proof.
  induction l as [|x l IH]; [done |]. intros _ Hl.
  inversion_clear Hl as [|?? Hx Hl']. destruct l as [|y l].
  - simpl. by apply split_no_sep_id.
  - change (join (String sep EmptyString) (x :: y :: l))
      with (x +:+ String sep (join (String sep EmptyString) (y :: l))).
    rewrite split_append_sep by done. f_equal. by apply IH.
Qed.

Lemma join_snoc sep (l : list string) x :
  l ≠ [] → join sep (l ++ [x]) = join sep l +:+ sep +:+ x.
Proof.
  induction l as [|y l IH]; [done |]. intros _. destruct l as [|z l].
  - done.
  - change (join sep ((y :: z :: l) ++ [x]))
      with (y +:+ sep +:+ join sep ((z :: l) ++ [x])).
    rewrite IH by done.
    change (join sep (y :: z :: l)) with (y +:+ sep +:+ join sep (z :: l)).
    by rewrite !append_assoc.
Qed.

Lemma join_nonempty sep (l : list string) :
  l ≠ [] → Forall (λ p, nonempty p = true) l → nonempty (join sep l) = true.
Proof.
  destruct l as [|x l]; [done |]. intros _ Hl.
  inversion_clear Hl as [|?? Hx _]. destruct l; simpl; [done |].
  by destruct x.
Qed.

(** *** [split1] *)

Lemma split1_no_sep sep s : contains sep s = false → split1 sep s = [s].
Proof.
  induction s as [|c s IH]; simpl; [done |].
  destruct (Ascii.eqb c sep); simpl; [done |]. intros H. by rewrite (IH H).
Qed.

Lemma split1_append_sep sep a b :
  contains sep a = false → split1 sep (a +:+ String sep b) = [a; b].
Proof.
  induction a as [|c a IH]; rewrite ?append_cons, ?append_empty_l; simpl.
  - by rewrite Ascii.eqb_refl.
  - destruct (Ascii.eqb c sep); simpl; [done |]. intros H. by rewrite (IH H).
Qed.

(** A string with a separator is cut at the first one. *)
Lemma split1_sep sep s :
  contains sep s = true →
  ∃ a b, s = a +:+ String sep b ∧ contains sep a = false ∧ split1 sep s = [a; b].
Proof.
  induction s as [|c s IH]; simpl; [done |].
  destruct (Ascii.eqb_spec c sep) as [->|Hne]; simpl.
  - intros _. by exists EmptyString, s.
  - intros H. destruct (IH H) as (a & b & -> & Ha & Hs).
    exists (String c a), b. simpl. rewrite Hs, Ha.
    by destruct (Ascii.eqb_spec c sep).
Qed.

Lemma append_sep_inj sep a b a' b' :
  contains sep a = false → contains sep a' = false →
  a +:+ String sep b = a' +:+ String sep b' → a = a' ∧ b = b'.
Proof.
  intros Ha Ha' E. apply (f_equal (split1 sep)) in E.
  rewrite !split1_append_sep in E by done. by simplify_eq.
Qed.

(** *** [quote_plus] *)

Lemma quote_plus_unreserved s :
  all_chars is_unreserved s = true → quote_plus s = s.
Proof.
  induction s as [|c s IH]; simpl; [done |].
  intros [Hc Hs]%andb_true_iff. by rewrite Hc, IH.
Qed.

Lemma replace_absent c by_ s : contains c s = false → replace c by_ s = s.
Proof.
  induction s as [|a s IH]; simpl; [done |].
  destruct (Ascii.eqb a c); simpl; [done |]. intros H. by rewrite IH.
Qed.

End PyFacts.

(** ** Facts about [AWSAuth.__call__] *)

Module AuthFacts.
Import Py Auth AuthSpec PyFacts.

Lemma hex_digit_unreserved n : is_unreserved (hex_digit n) = true.
Proof. do 16 (destruct n as [|n]; [done |]). done. Qed.

Lemma quote_plus_chars s :
  all_chars (λ c, canonical_char c || Ascii.eqb c "+") (quote_plus s) = true.
Proof.
  induction s as [|c s IH]; [done |]. cbn [quote_plus].
  destruct (is_unreserved c) eqn:Hc.
  - cbn [all_chars]. unfold canonical_char at 1. by rewrite Hc, IH.
  - destruct (Ascii.eqb c " "); [by cbn [all_chars]; rewrite IH |].
    unfold percent_byte. rewrite !append_cons, append_empty_l.
    cbn [all_chars]. rewrite IH. unfold canonical_char.
    by rewrite !hex_digit_unreserved.
Qed.

Lemma replace_plus_chars s :
  all_chars (λ c, canonical_char c || Ascii.eqb c "+") s = true →
  all_chars canonical_char (replace "+" "%20" s) = true.
Proof.
  induction s as [|c s IH]; [done |]. cbn [all_chars replace].
  intros [Hc Hs]%andb_true_iff. destruct (Ascii.eqb c "+") eqn:E.
  - rewrite !append_cons, append_empty_l. cbn [all_chars].
    rewrite (IH Hs). done.
  - cbn [all_chars]. rewrite orb_false_r in Hc. by rewrite Hc, IH.
Qed.

Lemma canonical_value_chars v :
  all_chars canonical_char (canonical_value v) = true.
Proof. apply replace_plus_chars, quote_plus_chars. Qed.

Lemma canonical_value_no c v :
  canonical_char c = false → contains c (canonical_value v) = false.
Proof.
  intros Hc. eapply all_chars_not_contains; [done | apply canonical_value_chars].
Qed.

Lemma canonical_value_plain v :
  all_chars is_unreserved v = true → canonical_value v = v.
Proof.
  intros Hv. unfold canonical_value. rewrite quote_plus_unreserved by done.
  apply replace_absent.
  apply (all_chars_not_contains is_unreserved); [reflexivity | done].
Qed.

Lemma raw_pair_nonempty kv : nonempty (raw_pair kv) = true.
Proof. unfold raw_pair. by apply nonempty_append_r. Qed.

Lemma pair_str_nonempty kv : nonempty (pair_str kv) = true.
Proof. unfold pair_str. by apply nonempty_append_r. Qed.

Lemma pair_str_no_amp kv :
  contains "&" kv.1 = false → contains "&" (pair_str kv) = false.
Proof.
  intros Hk. unfold pair_str. rewrite !contains_append, Hk. simpl.
  by rewrite canonical_value_no by reflexivity.
Qed.

Lemma pair_str_plain kv :
  all_chars is_unreserved kv.2 = true → pair_str kv = raw_pair kv.
Proof. intros H. unfold pair_str. by rewrite canonical_value_plain. Qed.

Lemma split1_raw_pair k v :
  contains "=" k = false → split1 "=" (raw_pair (k, v)) = [k; v].
Proof. intros Hk. by apply (split1_append_sep "=" k v). Qed.

Lemma raw_pair_inj k v k' v' :
  contains "=" k = false → contains "=" k' = false →
  raw_pair (k, v) = raw_pair (k', v') → k = k' ∧ v = v'.
Proof. intros Hk Hk'. by apply (append_sep_inj "="). Qed.

(** *** The loop body *)

Lemma kept_inv_init : kept_inv scan_init [].
Proof.
  split; simpl; [done | | constructor | constructor].
  intros k. rewrite lookup_empty, elem_of_nil. split; [by intros [??] | done].
Qed.

Lemma kept_inv_flag st L b :
  kept_inv st L → kept_inv (mkScan (query st) b (querystring st)) L.
Proof. by intros [????]. Qed.

Lemma key_in_spec st L k :
  kept_inv st L → key_in k (query st) = bool_decide (k ∈ L.*1).
Proof.
  intros HI. unfold key_in. apply bool_decide_ext, (inv_dom _ _ HI).
Qed.

(** Appending a fresh pair keeps the invariant. *)
Lemma kept_inv_snoc st L k v :
  kept_inv st L → good_key k → k ∉ L.*1 →
  kept_inv
    (mkScan (<[k := v]> (query st)) (multi_valued_params st)
       ((if nonempty (querystring st) then querystring st +:+ "&"
         else querystring st) +:+ join "=" [k; canonical_value v]))
    (L ++ [(k, v)]).
Proof.
  intros [Hqs Hdom Hnd Hkeys] Hk Hfresh. split; simpl.
  - rewrite map_app. simpl. change (k +:+ "=" +:+ canonical_value v)
      with (pair_str (k, v)).
    destruct L as [|kv L].
    + simpl in *. by rewrite Hqs.
    + rewrite join_snoc by done. rewrite Hqs.
      rewrite join_nonempty; [by rewrite append_assoc | done |].
      apply Forall_forall. intros x (y & -> & _)%list_elem_of_fmap.
      apply pair_str_nonempty.
  - intros k'. rewrite lookup_insert_is_Some', fmap_app, elem_of_app, Hdom.
    simpl. rewrite list_elem_of_singleton.
    split; intros [?|?]; auto.
  - rewrite fmap_app. apply NoDup_app. split_and!; [done | | ].
    + intros x Hx [->|[]%elem_of_nil]%elem_of_cons. done.
    + simpl. apply NoDup_singleton.
  - rewrite fmap_app. apply Forall_app. split; [done |].
    simpl. constructor; [done | constructor].
Qed.

(** The body of the loop on a parameter [k=v]. *)
Lemma scan_param_pair st L k v :
  kept_inv st L → contains "=" k = false →
  scan_param st (raw_pair (k, v)) =
    Ok (if bool_decide (k ∈ L.*1) then
          mkScan (query st) true (querystring st)
        else if nonempty k then
          mkScan (<[k := v]> (query st)) (multi_valued_params st)
            ((if nonempty (querystring st) then querystring st +:+ "&"
              else querystring st) +:+ join "=" [k; canonical_value v])
        else st).
Proof.
  intros HI Hk. unfold scan_param.
  rewrite raw_pair_nonempty, split1_raw_pair by done. simpl.
  rewrite (key_in_spec _ _ _ HI). destruct st as [q m qs]; simpl.
  destruct m, (bool_decide (k ∈ L.*1)), (nonempty k); done.
Qed.

(** What the body does, for any parameter on which it does not raise. *)
Lemma scan_param_cases st p st' :
  scan_param st p = Ok st' →
  (p = EmptyString ∧ st' = st) ∨
  (∃ k v, p = raw_pair (k, v) ∧ contains "=" k = false).
Proof.
  unfold scan_param. destruct (nonempty p) eqn:Hp.
  - destruct (contains "=" p) eqn:E.
    + destruct (split1_sep "=" _ E) as (k & v & Hpkv & Hk & _).
      right. by exists k, v.
    + by rewrite (split1_no_sep _ _ E).
  - intros ?. left. destruct p; by simplify_eq.
Qed.

Lemma scan_param_total st p :
  well_formed_param p = true → ∃ st', scan_param st p = Ok st'.
Proof.
  unfold well_formed_param, scan_param. destruct (nonempty p); simpl; [|by eauto].
  intros E. destruct (split1_sep "=" _ E) as (k & v & _ & _ & ->). simpl.
  repeat case_match; eauto.
Qed.


(** *** The whole loop *)

Lemma bind_Ok {A B} (m : result A) (f : A → result B) b :
  m ≫= f = Ok b → ∃ a, m = Ok a ∧ f a = Ok b.
Proof. destruct m as [a|e]; [by exists a | done]. Qed.

Lemma scan_params_app a b st :
  scan_params (a ++ b) st = scan_params a st ≫= scan_params b.
Proof.
  revert st. induction a as [|p a IH]; intros st; [done |]. simpl.
  destruct (scan_param st p) as [st'|e]; [apply IH | done].
Qed.

Lemma scan_params_total ps st :
  forallb well_formed_param ps = true → ∃ st', scan_params ps st = Ok st'.
Proof.
  revert st. induction ps as [|p ps IH]; intros st; simpl; [by eauto |].
  intros [Hp Hps]%andb_true_iff.
  destruct (scan_param_total st p Hp) as [st1 ->]. by apply IH.
Qed.

Lemma good_key_of_param k v :
  nonempty k = true → contains "=" k = false →
  contains "&" (raw_pair (k, v)) = false → good_key k.
Proof.
  intros Hne Hk Hamp. unfold raw_pair in Hamp. simpl in Hamp.
  rewrite contains_append in Hamp. apply orb_false_iff in Hamp as [Hamp _].
  done.
Qed.

Lemma scan_param_inv st L p st' :
  kept_inv st L → contains "&" p = false → scan_param st p = Ok st' →
  ∃ L', kept_inv st' (L ++ L') ∧ (∀ kv, kv ∈ L' → raw_pair kv = p)
        ∧ (multi_valued_params st = true → multi_valued_params st' = true).
Proof.
  intros HI Hamp Hscan.
  destruct (scan_param_cases _ _ _ Hscan) as [[-> ->]|(k & v & -> & Hk)].
  { exists []. rewrite app_nil_r. split_and!; [done | | done].
    by intros ? ?%elem_of_nil. }
  rewrite (scan_param_pair _ L) in Hscan by done. injection Hscan as <-.
  case_bool_decide as Hin.
  - exists []. rewrite app_nil_r. split_and!; [by apply kept_inv_flag | | done].
    by intros ? ?%elem_of_nil.
  - destruct (nonempty k) eqn:Hne.
    + exists [(k, v)]. split_and!; [| | done].
      * apply kept_inv_snoc; [done | by eapply good_key_of_param | done].
      * by intros ? ->%list_elem_of_singleton.
    + exists []. rewrite app_nil_r. split_and!; [done | | done].
      by intros ? ?%elem_of_nil.
Qed.

Lemma scan_params_inv ps st L st' :
  kept_inv st L → Forall (λ p, contains "&" p = false) ps →
  scan_params ps st = Ok st' →
  ∃ L', kept_inv st' (L ++ L') ∧ (∀ kv, kv ∈ L' → raw_pair kv ∈ ps)
        ∧ (multi_valued_params st = true → multi_valued_params st' = true).
Proof.
  revert st L. induction ps as [|p ps IH]; intros st L HI Hamp Hscan.
  { simpl in Hscan. injection Hscan as <-. exists []. rewrite app_nil_r.
    split_and!; [done | | done]. by intros ? ?%elem_of_nil. }
  inversion_clear Hamp as [|?? Hp Hps]. simpl in Hscan.
  apply bind_Ok in Hscan as (st1 & H1 & Hrest).
  destruct (scan_param_inv _ _ _ _ HI Hp H1) as (L1 & HI1 & Hsrc1 & Hm1).
  destruct (IH _ _ HI1 Hps Hrest) as (L2 & HI2 & Hsrc2 & Hm2).
  exists (L1 ++ L2). rewrite app_assoc. split_and!; [done | | by auto].
  intros kv [Hkv|Hkv]%elem_of_app.
  - rewrite <-(Hsrc1 _ Hkv). apply list_elem_of_here.
  - apply list_elem_of_further. by apply Hsrc2.
Qed.

(** Scanning parameters whose keys are new and pairwise different keeps
    them all and leaves the flag alone. *)
Lemma scan_fresh L st L0 :
  kept_inv st L0 → NoDup (L0 ++ L).*1 → Forall good_key L.*1 →
  ∃ st', scan_params (map raw_pair L) st = Ok st' ∧ kept_inv st' (L0 ++ L)
         ∧ multi_valued_params st' = multi_valued_params st.
Proof.
  revert st L0. induction L as [|[k v] L IH]; intros st L0 HI Hnd Hkeys.
  { exists st. by rewrite app_nil_r. }
  simpl in Hkeys. inversion_clear Hkeys as [|?? Hk HL].
  assert (Hfresh : k ∉ L0.*1).
  { rewrite fmap_app in Hnd. apply NoDup_app in Hnd as (_ & Hnd & _).
    intros Hin. apply (Hnd _ Hin). simpl. apply list_elem_of_here. }
  simpl. rewrite (scan_param_pair _ L0) by (done || apply Hk).
  rewrite bool_decide_eq_false_2 by done. destruct Hk as (Hne & Heq & Hamp).
  rewrite Hne. simpl.
  destruct (IH _ (L0 ++ [(k, v)])
              (kept_inv_snoc _ _ k v HI (conj Hne (conj Heq Hamp)) Hfresh))
    as (st' & Hscan & HI' & Hm); [by rewrite <-app_assoc | done |].
  exists st'. rewrite <-app_assoc in HI'. done.
Qed.

Lemma nodup_keys_functional {A B} (L : list (A * B)) k v v' :
  NoDup L.*1 → (k, v) ∈ L → (k, v') ∈ L → v = v'.
Proof.
  induction L as [|[k0 v0] L IH]; simpl; [by intros _ ?%elem_of_nil |].
  intros [Hk0 Hnd]%NoDup_cons.
  intros [?|H1]%elem_of_cons [?|H2]%elem_of_cons; simplify_eq; [done | | | by auto].
  - destruct Hk0. apply list_elem_of_fmap. by exists (k0, v').
  - destruct Hk0. apply list_elem_of_fmap. by exists (k0, v).
Qed.

Lemma canonicalize_unfold q :
  canonicalize q =
    st ← scan_params (split "&" q) scan_init;
    Ok (multi_valued_params st, querystring st).
Proof.
  unfold canonicalize. destruct (split "&" q) as [|p ps] eqn:E; [|done].
  by destruct (split_not_nil "&" q).
Qed.

End AuthFacts.

(** ** Canonicalisation: the properties of the specification *)

Module AuthClaims.
Import Py Auth AuthSpec PyFacts AuthFacts.








End AuthClaims.

(** ** The signing wrapper: what is signed and what is sent *)

Module SignFacts.
Import Py Auth AuthSpec PyFacts AuthFacts.

Lemma split1_two sep s a b :
  split1 sep s = [a; b] → s = a +:+ String sep b ∧ contains sep a = false.
Proof.
  intros Hs. destruct (contains sep s) eqn:E.
  - destruct (split1_sep _ _ E) as (a' & b' & -> & Ha & Hs').
    rewrite Hs' in Hs. by simplify_eq.
  - rewrite (split1_no_sep _ _ E) in Hs. done.
Qed.

(** A URL is its part before the first [#], followed by the rest. *)
Lemma split1_head sep s :
  ∃ rest, s = default EmptyString (head (split1 sep s)) +:+ rest
          ∧ contains sep (default EmptyString (head (split1 sep s))) = false.
Proof.
  destruct (contains sep s) eqn:E.
  - destruct (split1_sep _ _ E) as (a & b & -> & Ha & ->).
    by exists (String sep b).
  - rewrite (split1_no_sep _ _ E). simpl. exists EmptyString.
    by rewrite append_empty_r.
Qed.

Lemma split_no_char c sep s :
  contains c s = false → Forall (λ p, contains c p = false) (split sep s).
Proof.
  induction s as [|a s IH]; simpl; [by repeat constructor |].
  intros [Ha Hs]%orb_false_iff. specialize (IH Hs).
  destruct (Ascii.eqb a sep); [by constructor |].
  destruct (split sep s) as [|h t]; [by repeat constructor; simpl; rewrite Ha |].
  inversion_clear IH as [|?? Hh Ht]. constructor; [|done]. simpl.
  by rewrite Ha, Hh.
Qed.

Lemma join_no_char c sep (l : list string) :
  contains c sep = false → Forall (λ p, contains c p = false) l →
  contains c (join sep l) = false.
Proof.
  intros Hsep. induction 1 as [|x l Hx Hl IH]; [done |].
  destruct l as [|y l]; [done |].
  change (join sep (x :: y :: l)) with (x +:+ sep +:+ join sep (y :: l)).
  by rewrite !contains_append, Hx, Hsep, IH.
Qed.

(** The canonical string has no character that the query did not have,
    apart from those the percent-encoding uses. *)
Lemma canonicalize_no_char c q fl cs :
  canonicalize q = Ok (fl, cs) → contains c q = false →
  canonical_char c = false → Ascii.eqb "&" c = false → Ascii.eqb "=" c = false →
  contains c cs = false.
Proof.
  rewrite canonicalize_unfold. intros (st & Hscan & Hst)%bind_Ok Hq Hc Hamp Heq.
  injection Hst as <- <-.
  destruct (scan_params_inv _ _ [] _ kept_inv_init (split_no_sep "&" q) Hscan)
    as (L & HI & Hsrc & _). simpl in HI.
  assert (Hone : ∀ a, Ascii.eqb a c = false →
                      contains c (String a EmptyString) = false).
  { intros a Ha. cbn [contains]. by rewrite Ha. }
  rewrite (inv_qs _ _ HI). apply join_no_char; [by apply Hone |].
  apply Forall_forall. intros x ([k v] & -> & Hkv)%list_elem_of_fmap.
  pose proof (split_no_char c "&" q Hq) as Hps. rewrite Forall_forall in Hps.
  specialize (Hps _ (Hsrc _ Hkv)). unfold raw_pair in Hps. simpl in Hps.
  rewrite contains_append in Hps. apply orb_false_iff in Hps as [Hk _].
  unfold pair_str. cbn [fst snd].
  by rewrite !contains_append, Hk, (Hone "="%char Heq), canonical_value_no.
Qed.

Lemma urlparse_query_no_hash u : contains "#" (urlparse_query u) = false.
Proof.
  unfold urlparse_query. destruct (split1_head "#" u) as (rest & _ & Hpre).
  destruct (split1 "?" _) as [|a [|q [|]]] eqn:Hs; try done.
  apply split1_two in Hs as [Hpreq _].
  rewrite Hpreq, !contains_append in Hpre.
  by apply orb_false_iff in Hpre as [_ Hq].
Qed.

(** When the query of [u] is not empty, [u.split("?")[0]] is the part of
    [u] before the query, and putting a [#]-free string after it as the
    query gives a URL whose query is that string. *)
Lemma rebuilt_url_query u cs :
  urlparse_query u ≠ EmptyString → contains "#" cs = false →
  ∃ base, index (split "?" u) 0 = Ok base
    ∧ urlparse_query (base +:+ "?" +:+ cs) = cs.
Proof.
  intros Hq Hcs. unfold urlparse_query in *.
  destruct (split1_head "#" u) as (rest & Hu & Hpre).
  set (pre := default EmptyString (head (split1 "#" u))) in *.
  destruct (split1 "?" pre) as [|a [|q [|]]] eqn:Hs; try done.
  apply split1_two in Hs as [Hpreq Ha].
  rewrite Hpreq, !contains_append in Hpre.
  apply orb_false_iff in Hpre as [Ha' _]. exists a. split.
  - rewrite Hu, Hpreq, append_assoc, append_cons.
    by rewrite split_append_sep.
  - change (a +:+ "?" +:+ cs) with (a +:+ String "?" cs).
    assert (Hno : contains "#" (a +:+ String "?" cs) = false).
    { rewrite contains_append, Ha'. cbn [contains]. by rewrite Hcs. }
    rewrite (split1_no_sep _ _ Hno). cbn [head default from_option id].
    by rewrite (split1_append_sep "?" a cs Ha).
Qed.

Lemma update_twice (h a : gmap string string) :
  update h (update h a) = update h a.
Proof. unfold update. by rewrite <-(assoc_L (∪)), (idemp_L (∪)). Qed.

(** The only exception of the wrapper is the [IndexError] of a parameter
    without [=]. *)
Lemma index_raises {A} (l : list A) i ex : index l i = Raise ex → ex = IndexError.
Proof. unfold index. destruct (l !! i); [done | by intros [= <-]]. Qed.

Lemma scan_params_raises ps st ex :
  scan_params ps st = Raise ex → ex = IndexError.
Proof.
  revert st. induction ps as [|p ps IH]; intros st; simpl; [done |].
  destruct (scan_param st p) as [st'|ex'] eqn:Hp; simpl; [by apply IH |].
  intros [= <-]. unfold scan_param in Hp.
  destruct (nonempty p); [|done].
  destruct (index (split1 "=" p) 0) as [k|?] eqn:H0; simpl in Hp;
    [|injection Hp as <-; by eapply index_raises].
  destruct (index (split1 "=" p) 1) as [v|?] eqn:H1; simpl in Hp;
    [|injection Hp as <-; by eapply index_raises].
  by repeat case_match.
Qed.

Lemma AWSAuth_call_raises aws r ex :
  AWSAuth_call aws r = Raise ex → ex = IndexError.
Proof.
  unfold AWSAuth_call. rewrite canonicalize_unfold.
  destruct (scan_params _ _) as [st|ex'] eqn:Hs; simpl.
  - destruct (multi_valued_params st); [|done].
    destruct (index (split "?" (url r)) 0) eqn:Hi; simpl; [done |].
    intros [= <-]. by eapply index_raises.
  - intros [= <-]. by eapply scan_params_raises.
Qed.

End SignFacts.

(** ** Further properties: the canonical query string *)

Module CanonicalFacts.
Import Py Auth AuthSpec PyFacts AuthFacts SignFacts More MoreSpec SignSpec.

Lemma parse_param_empty : parse_param EmptyString = None.
Proof. reflexivity. Qed.

Lemma parse_param_pair k v :
  contains "=" k = false →
  parse_param (raw_pair (k, v)) = if nonempty k then Some (k, v) else None.
Proof. intros Hk. unfold parse_param. by rewrite split1_raw_pair. Qed.

(** A well-formed parameter is empty or of the form [k=v]. *)
Lemma well_formed_param_cases p :
  well_formed_param p = true →
  p = EmptyString ∨ ∃ k v, p = raw_pair (k, v) ∧ contains "=" k = false.
Proof.
  unfold well_formed_param. destruct p as [|c p]; [by left |]. simpl.
  intros E. destruct (split1_sep "=" (String c p) E) as (k & v & Hp & Hk & _).
  right. by exists k, v.
Qed.

(** The loop computes the first occurrences and the repetition test. *)
Lemma scan_params_spec ps st L :
  kept_inv st L → forallb well_formed_param ps = true →
  Forall (λ p, contains "&" p = false) ps →
  ∃ st', scan_params ps st = Ok st'
    ∧ kept_inv st' (L ++ first_occurrences L.*1 (omap parse_param ps))
    ∧ multi_valued_params st'
      = multi_valued_params st || repeats L.*1 (omap parse_param ps).
Proof.
  revert st L. induction ps as [|p ps IH]; intros st L HI Hwf Hamp.
  { exists st. simpl. by rewrite app_nil_r, orb_false_r. }
  simpl in Hwf. apply andb_true_iff in Hwf as [Hp Hwf].
  inversion_clear Hamp as [|?? Hpamp Hamp'].
  destruct (well_formed_param_cases p Hp) as [->|(k & v & -> & Hk)].
  { destruct (IH st L HI Hwf Hamp') as (st' & Hs & HI' & Hm).
    exists st'. by cbn. }
  cbn [scan_params]. rewrite (scan_param_pair _ L) by done.
  cbn [omap list_omap]. rewrite parse_param_pair by done.
  pose proof (inv_keys _ _ HI) as Hkeys. rewrite Forall_forall in Hkeys.
  case_bool_decide as Hin.
  - destruct (Hkeys k Hin) as (Hne & _). rewrite Hne. cbn [first_occurrences repeats].
    rewrite bool_decide_eq_true_2 by done.
    destruct (IH _ L (kept_inv_flag _ _ true HI) Hwf Hamp') as (st' & Hs & HI' & Hm).
    exists st'. split_and!; [exact Hs | done |].
    rewrite Hm. cbn. by rewrite orb_true_r.
  - destruct (nonempty k) eqn:Hne.
    + cbn [first_occurrences repeats]. rewrite bool_decide_eq_false_2 by done.
      pose proof (kept_inv_snoc _ _ k v HI
                    (good_key_of_param _ _ Hne Hk Hpamp) Hin) as HI1.
      destruct (IH _ _ HI1 Hwf Hamp') as (st' & Hs & HI' & Hm).
      exists st'. rewrite fmap_app in HI', Hm.
      rewrite <-app_assoc in HI'. split_and!; [exact Hs | done | done].
    + destruct (IH st L HI Hwf Hamp') as (st' & Hs & HI' & Hm).
      exists st'. split_and!; [exact Hs | done | done].
Qed.

Lemma repeats_nodup seen l :
  NoDup seen → repeats seen l = negb (bool_decide (NoDup (seen ++ l.*1))).
Proof.
  revert seen. induction l as [|[k v] l IH]; intros seen Hseen.
  { cbn. by rewrite app_nil_r, bool_decide_eq_true_2. }
  cbn [repeats]. case_bool_decide as Hin.
  - symmetry. apply negb_true_iff, bool_decide_eq_false_2.
    intros Hnd. apply NoDup_app in Hnd as (_ & Hdisj & _).
    apply (Hdisj k Hin). cbn. apply list_elem_of_here.
  - rewrite IH.
    + cbn. by rewrite <-app_assoc.
    + apply NoDup_app. split_and!; [done | | apply NoDup_singleton].
      by intros x Hx ->%list_elem_of_singleton.
Qed.

(** A non-empty parameter without [=] makes the loop raise. *)
Lemma scan_params_ill_formed ps st :
  forallb well_formed_param ps = false → scan_params ps st = Raise IndexError.
Proof.
  revert st. induction ps as [|p ps IH]; intros st; [done |]. simpl.
  destruct (well_formed_param p) eqn:Hp; simpl.
  - intros Hps. destruct (scan_param_total st p Hp) as [st1 ->]. cbn.
    by apply IH.
  - intros _. unfold well_formed_param in Hp.
    apply orb_false_iff in Hp as [Hne Heq].
    apply negb_false_iff in Hne. unfold scan_param.
    by rewrite Hne, (split1_no_sep _ _ Heq).
Qed.

(** X3: canonicalisation raises exactly on the queries that have a
    non-empty parameter without [=], and what it raises is [IndexError]. *)
Theorem canonicalize_raises_iff q :
  (well_formed q = true → ∃ fl cs, canonicalize q = Ok (fl, cs))
  ∧ (well_formed q = false → canonicalize q = Raise IndexError).
Proof.
  rewrite canonicalize_unfold. unfold well_formed. split; intros Hwf.
  - destruct (scan_params_total _ scan_init Hwf) as [st ->]. by eexists _, _.
  - by rewrite scan_params_ill_formed.
Qed.

Lemma canonicalize_raises_iff_witness :
  canonicalize "a=1&flag&b=2" = Raise IndexError.
Proof. apply (proj2 (canonicalize_raises_iff "a=1&flag&b=2")). reflexivity. Defined.

(** X4: on a query whose non-empty parameters all have an [=], the
    canonical string is made of the parameters with a non-empty key, each
    key with the value of its first occurrence, in the order of these
    first occurrences, with the values re-encoded and [&] in between; the
    flag says whether some key occurs twice. *)
Theorem canonicalize_first_occurrences q :
  well_formed q = true →
  canonicalize q
  = Ok (negb (bool_decide (NoDup (pairs_of q).*1)),
        join "&" (map pair_str (first_occurrences [] (pairs_of q)))).
Proof.
  intros Hwf. rewrite canonicalize_unfold.
  destruct (scan_params_spec (split "&" q) scan_init [] kept_inv_init Hwf
              (split_no_sep "&" q)) as (st & -> & HI & Hm).
  cbn. rewrite Hm, (inv_qs _ _ HI). cbn.
  by rewrite (repeats_nodup [] _ (NoDup_nil_2)).
Qed.

Lemma canonicalize_first_occurrences_witness :
  canonicalize "b=2&a=1 2&&=x&b=3&a=4"
  = Ok (negb (bool_decide (NoDup (pairs_of "b=2&a=1 2&&=x&b=3&a=4").*1)),
        join "&" (map pair_str
                    (first_occurrences [] (pairs_of "b=2&a=1 2&&=x&b=3&a=4")))).
Proof. apply canonicalize_first_occurrences. reflexivity. Defined.

(** X5: a canonical string has every key once: canonicalising it again
    raises no error and does not report a repeated key. *)
Theorem canonical_string_has_distinct_keys q fl cs :
  canonicalize q = Ok (fl, cs) → ∃ cs', canonicalize cs = Ok (false, cs').
Proof.
  rewrite canonicalize_unfold. intros (st & Hscan & Hst)%bind_Ok.
  injection Hst as <- <-.
  destruct (scan_params_inv _ _ [] _ kept_inv_init (split_no_sep "&" q) Hscan)
    as (L & HI & _ & _). simpl in HI.
  rewrite (inv_qs _ _ HI). destruct (decide (L = [])) as [->|HL].
  { by exists EmptyString. }
  pose proof (inv_keys _ _ HI) as Hkeys. rewrite Forall_forall in Hkeys.
  set (L' := map (λ kv, (kv.1, canonical_value kv.2)) L).
  assert (Hraw : map pair_str L = map raw_pair L').
  { unfold L'. rewrite map_map. by apply map_ext. }
  assert (Hfst : L'.*1 = L.*1).
  { unfold L'. rewrite <-list_fmap_compose. by apply list_fmap_ext. }
  rewrite canonicalize_unfold, split_join.
  - rewrite Hraw.
    destruct (scan_fresh L' scan_init [] kept_inv_init) as (st' & -> & _ & Hm).
    + cbn. rewrite Hfst. apply (inv_nodup _ _ HI).
    + rewrite Hfst. apply (inv_keys _ _ HI).
    + cbn. rewrite Hm. by eexists.
  - by destruct L.
  - apply Forall_forall. intros x (y & -> & Hy)%list_elem_of_fmap.
    apply pair_str_no_amp. apply (Hkeys y.1), list_elem_of_fmap. by exists y.
Qed.

Lemma canonical_string_has_distinct_keys_witness :
  ∃ cs', canonicalize "a=1%2B2&b=2" = Ok (false, cs').
Proof.
  apply (canonical_string_has_distinct_keys "a=1+2&b=2&a=3" true "a=1%2B2&b=2").
  reflexivity.
Defined.

(** The loop and the wrapper against the vocabulary of the signing
    properties. *)
Lemma canonicalize_well_formed q :
  well_formed q = true →
  canonicalize q = Ok (has_repeated_key q, canonical_string q).
Proof.
  intros Hwf. rewrite canonicalize_unfold.
  destruct (scan_params_spec (split "&" q) scan_init [] kept_inv_init Hwf
              (split_no_sep "&" q)) as (st & -> & HI & Hm).
  cbn. rewrite Hm, (inv_qs _ _ HI). cbn.
  by rewrite (repeats_nodup [] _ (NoDup_nil_2)).
Qed.

Lemma AWSAuth_call_spec aws r :
  AWSAuth_call aws r
  = if well_formed (urlparse_query (url r)) then Ok (signed_request aws r)
    else Raise IndexError.
Proof.
  destruct (well_formed _) eqn:Hwf; unfold AWSAuth_call.
  - rewrite (canonicalize_well_formed _ Hwf). cbn -[update].
    unfold signed_request, signing_view.
    destruct (has_repeated_key _); [| reflexivity].
    unfold index. destruct (split "?" (url r)) as [|base l] eqn:Hsp.
    { by destruct (split_not_nil "?" (url r)). }
    cbn -[update]. unfold auth_call. cbn -[update]. do 2 f_equal.
    exact (update_twice (headers r) _).
  - by rewrite canonicalize_unfold, scan_params_ill_formed.
Qed.

End CanonicalFacts.

Module SignClaims.
Import Py Auth AuthSpec PyFacts AuthFacts SignFacts MoreSpec SignSpec CanonicalFacts.

(** C4, as stated, fails: with a repeated key the request leaves with its
    URL exactly as it came, plus signs included; the substitution of [+]
    by [%20] is only made when no key repeats. *)
Lemma duplicate_key_url_sent_verbatim :
  AWSAuth_call Demo.echo_signer
    (mkReq "GET" "https://paraio.com/v1/x?a=1+2&b=2&a=3" ∅ None)
  = Ok (mkReq "GET" "https://paraio.com/v1/x?a=1+2&b=2&a=3"
          {[ "Authorization" := "SIGNED https://paraio.com/v1/x?a=1%2B2&b=2" ]}
          None)
  ∧ replace "+" "%20" "https://paraio.com/v1/x?a=1+2&b=2&a=3"
    = "https://paraio.com/v1/x?a=1%202&b=2&a=3".
Proof. split; vm_compute; reflexivity. Qed.

(** C4, amended: for every request and signer, by the query of the URL.
    - Every non-empty parameter has an [=] and some key with a non-empty
      name occurs in two parameters: the signer is given a copy whose URL
      is the part of the original URL before its first [?], then [?],
      then the canonical string (the first occurrence of every non-empty
      key), and the query of that URL is exactly the canonical string;
      the headers it computes are added to the original request, whose
      method, body and URL (no character replaced) stay as they were.
    - Every non-empty parameter has an [=] and no key with a non-empty
      name occurs twice (parameters with an empty key do not count): the
      URL of the request gets every [+] replaced by [%20]; that request
      is what the signer is given and what is sent.
    - Some non-empty parameter has no [=]: the call raises [IndexError]
      and nothing is signed. *)
Theorem AWSAuth_call_signs_canonical_view aws r :
  let q := urlparse_query (url r) in
  if well_formed q then
    if has_repeated_key q then
      ∃ base, index (split "?" (url r)) 0 = Ok base ∧
        let signed := set_url (base +:+ "?" +:+ canonical_string q) r in
        urlparse_query (url signed) = canonical_string q ∧
        AWSAuth_call aws r
        = Ok (set_headers (update (headers r) (aws signed)) r)
    else
      let sent := set_url (replace "+" "%20" (url r)) r in
      AWSAuth_call aws r
      = Ok (set_headers (update (headers r) (aws sent)) sent)
  else AWSAuth_call aws r = Raise IndexError.
Proof.
  cbn zeta. rewrite AWSAuth_call_spec.
  destruct (well_formed (urlparse_query (url r))) eqn:Hwf; [| done].
  unfold signed_request, signing_view.
  destruct (has_repeated_key (urlparse_query (url r))) eqn:Hrep; [| done].
  pose proof (canonicalize_well_formed _ Hwf) as Hc. rewrite Hrep in Hc.
  assert (Hq : urlparse_query (url r) ≠ EmptyString).
  { intros Hq. rewrite Hq in Hrep. discriminate Hrep. }
  assert (Hcs : contains "#" (canonical_string (urlparse_query (url r)))
                = false).
  { apply (canonicalize_no_char _ _ _ _ Hc);
      [apply urlparse_query_no_hash | done..]. }
  destruct (rebuilt_url_query _ _ Hq Hcs) as (base & Hbase & Hquery).
  exists base. split; [done |]. split; [done |].
  unfold index in Hbase. destruct (split "?" (url r)) as [|b l]; [done |].
  by injection Hbase as ->.
Qed.

(** The two side conditions matter. A key with an empty name that occurs
    twice is not a repeated key: the [+] is replaced and the whole URL is
    signed. A parameter without [=] after a repeated key makes the call
    raise. *)
Lemma empty_key_is_no_repeated_key :
  AWSAuth_call Demo.echo_signer
    (mkReq "GET" "https://paraio.com/v1/x?=1+2&=3" ∅ None)
  = Ok (mkReq "GET" "https://paraio.com/v1/x?=1%202&=3"
          {[ "Authorization" := "SIGNED https://paraio.com/v1/x?=1%202&=3" ]}
          None).
Proof. vm_compute. reflexivity. Qed.

Lemma parameter_without_value_raises :
  AWSAuth_call Demo.echo_signer
    (mkReq "GET" "https://paraio.com/v1/x?a=1&a=2&flag" ∅ None)
  = Raise IndexError.
Proof. vm_compute. reflexivity. Qed.

End SignClaims.

(** ** Facts about the client *)

Module ClientFacts.
Import Py Auth Client ClientSpec.

Lemma bind_unfold {A B} (m : M A) (f : A → M B) w :
  (m ≫= f) w =
    match m w with (Ok a, w') => f a w' | (Raise e, w') => (Raise e, w') end.
Proof. reflexivity. Qed.

Ltac msimpl :=
  repeat first
    [ rewrite bind_unfold
    | progress cbn [mret M_ret self lift raise update_self logging_error
                    time_ms] ].

(** *** Computations that send nothing *)

Lemma keeps_sent_bind {A B} (m : M A) (f : A → M B) :
  keeps_sent m → (∀ a, keeps_sent (f a)) → keeps_sent (m ≫= f).
Proof.
  intros Hm Hf w. rewrite bind_unfold. specialize (Hm w).
  destruct (m w) as [[a|e] w1]; simpl in *; [|done]. by rewrite Hf.
Qed.

Lemma keeps_sent_ret {A} (a : A) : keeps_sent (mret a).
Proof. done. Qed.
Lemma keeps_sent_lift {A} (r : result A) : keeps_sent (lift r).
Proof. done. Qed.
Lemma keeps_sent_raise {A} e : keeps_sent (@raise A e).
Proof. done. Qed.
Lemma keeps_sent_self : keeps_sent self.
Proof. done. Qed.
Lemma keeps_sent_update f : keeps_sent (update_self f).
Proof. done. Qed.
Lemma keeps_sent_log msg : keeps_sent (logging_error msg).
Proof. done. Qed.

Lemma keeps_sent_del get set : keeps_sent (del_attr get set).
Proof.
  apply keeps_sent_bind; [apply keeps_sent_self |]. intros c.
  destruct (get c); [apply keeps_sent_update | apply keeps_sent_raise].
Qed.

Lemma keeps_sent_clear : keeps_sent clearAccessToken.
Proof.
  unfold clearAccessToken.
  repeat (apply keeps_sent_bind; [apply keeps_sent_del | intros _]).
  apply keeps_sent_del.
Qed.

Ltac keeps_sent :=
  repeat first
    [ apply keeps_sent_ret | apply keeps_sent_lift | apply keeps_sent_raise
    | apply keeps_sent_self | apply keeps_sent_update | apply keeps_sent_log
    | apply keeps_sent_del | apply keeps_sent_clear
    | apply keeps_sent_bind; [|intros ?]
    | match goal with
      | |- keeps_sent (if ?b then _ else _) => destruct b
      | |- keeps_sent (match ?x with _ => _ end) => destruct x
      end ].

Lemma keeps_sent_getEntity res : keeps_sent (getEntity res).
Proof. unfold getEntity. keeps_sent. Qed.

Lemma getEndpoint_spec w : getEndpoint w = (Ok (endpoint_of (client w)), w).
Proof.
  unfold getEndpoint, endpoint_of. msimpl.
  by destruct (nonempty (endpoint (client w))).
Qed.

(** The two tests of [refreshToken], on a well-typed token state. *)
Lemma refresh_tests c now :
  well_typed c = true →
  match (if truthy (attr (tokenKeyExpires c))
         then PyBool <$> py_gt (attr (tokenKeyExpires c)) (PyInt now)
         else Ok (attr (tokenKeyExpires c))),
        (if truthy (attr (tokenKeyNextRefresh c)) then
           early ← py_lt (attr (tokenKeyNextRefresh c)) (PyInt now);
           if (early : bool) then Ok (PyBool true)
           else PyBool <$> py_gt (attr (tokenKeyNextRefresh c))
                                 (attr (tokenKeyExpires c))
         else Ok (attr (tokenKeyNextRefresh c))) with
  | Ok notexpired, Ok canrefresh =>
      truthy (attr (tokenKey c)) && truthy notexpired && truthy canrefresh
      = refresh_due c now
  | _, _ => refresh_due c now = false
  end.
Proof.
  unfold well_typed, refresh_due.
  destruct (attr (tokenKey c)) as [| |?|tok|?],
    (attr (tokenKeyExpires c)) as [| |e|?|?],
    (attr (tokenKeyNextRefresh c)) as [| |n|?|?]; simpl;
    try discriminate; intros _;
    repeat (match goal with
            | |- context [(?a =? ?b)%Z] =>
                let E := fresh in destruct (a =? b)%Z eqn:E; simpl; rewrite ?E
            | |- context [(?a <? ?b)%Z] =>
                let E := fresh in destruct (a <? b)%Z eqn:E; simpl; rewrite ?E
            | |- context [nonempty ?t] => destruct (nonempty t)
            end; simpl);
    done.
Qed.

(** [refreshToken] sends something only through its one call of
    [invokeGet], and makes that call exactly when the refresh is due. *)
Lemma refreshToken_body_sent ig w :
  well_typed (client w) = true →
  sent (refreshToken_body ig w).2 =
    if refresh_due (client w) (clock w) then sent (ig JWT_PATH [] w).2
    else sent w.
Proof.
  intros Hwt. pose proof (refresh_tests _ (clock w) Hwt) as Htests.
  unfold refreshToken_body. msimpl.
  destruct (if truthy (attr (tokenKeyExpires (client w))) then _ else _)
    as [notexpired|?].
  2: { by rewrite Htests. }
  msimpl.
  destruct (if truthy (attr (tokenKeyNextRefresh (client w))) then _ else _)
    as [canrefresh|?].
  2: { by rewrite Htests. }
  rewrite Htests. destruct (refresh_due _ _); [|done]. rewrite bind_unfold.
  destruct (ig JWT_PATH [] w) as [[res|e] w1]; [|done]. cbn [snd].
  revert w1. apply keeps_sent_bind; [apply keeps_sent_getEntity |].
  intros result. keeps_sent.
Qed.

(** *** Clearing the token *)

Lemma clear_token_cleared c : token_cleared (clear_token c).
Proof. by repeat split. Qed.

Lemma clearAccessToken_set w :
  is_Some (tokenKey (client w)) → is_Some (tokenKeyExpires (client w)) →
  is_Some (tokenKeyNextRefresh (client w)) →
  clearAccessToken w = (Ok (), with_client (clear_token (client w)) w).
Proof.
  intros [? Hk] [? He] [? Hn]. unfold clearAccessToken, del_attr. msimpl.
  rewrite Hk. msimpl. cbn [with_client client set_tokenKey tokenKeyExpires].
  rewrite He. msimpl.
  cbn [with_client client set_tokenKeyExpires set_tokenKey tokenKeyNextRefresh].
  rewrite Hn. reflexivity.
Qed.

Lemma clearAccessToken_unset w :
  tokenKey (client w) = None → clearAccessToken w = (Raise AttributeError, w).
Proof.
  intros Hk. unfold clearAccessToken, del_attr. msimpl. by rewrite Hk.
Qed.

(** Without expiry and next-refresh attributes [refreshToken] declines. *)
Lemma refreshToken_body_no_expiry ig w :
  tokenKeyExpires (client w) = None → tokenKeyNextRefresh (client w) = None →
  refreshToken_body ig w = (Ok (PyBool false), w).
Proof.
  intros He Hn. unfold refreshToken_body. msimpl. rewrite He, Hn.
  cbn [attr default from_option id truthy]. msimpl.
  by rewrite andb_false_r.
Qed.

Section Environment.
Variable prepare_url : string → list (string * string) → string.
Variable aws_request_headers :
  pyval → pyval → string → PreparedRequest → gmap string string.
Variable network : list PreparedRequest → PreparedRequest → option Response.

Abbreviation invokeSignedRequest :=
  (invokeSignedRequest prepare_url aws_request_headers network).
Abbreviation invokeGet := (invokeGet prepare_url aws_request_headers network).
Abbreviation refreshToken := (refreshToken prepare_url aws_request_headers network).
Abbreviation bearer_call := (bearer_call prepare_url network).
Abbreviation exchange := (exchange network).

(** A call with a token set: the refresh unless this is the refresh
    request itself, then the bearer call. *)
Lemma invokeSignedRequest_bearer d m e p h ps j w :
  truthy (accessKey (client w)) = true →
  truthy (attr (tokenKey (client w))) = true →
  invokeSignedRequest (S d) m e p h ps j w =
    ((if negb (String.eqb m "GET" && String.eqb p JWT_PATH)
      then _ ← refreshToken d; mret () else mret ());;
     bearer_call m e p h ps j) w.
Proof.
  intros Hak Htk. cbn [Client.invokeSignedRequest].
  unfold invokeSignedRequest_body, refreshToken, invokeGet.
  msimpl. rewrite Hak, Htk, andb_false_r. cbn [negb]. msimpl.
  match goal with
  | |- context [(if ?b then ?x else ?y) w] =>
      destruct ((if b then x else y) w) as [[[]|ex] w1]; [|done]
  end.
  unfold bearer_call. msimpl.
  destruct (str_concat "Bearer " _) as [v|ex]; [|done].
  unfold try_except, requests_request. msimpl. unfold send, exchange.
  destruct (network _ _); reflexivity.
Qed.

Lemma exchange_spec m p r w :
  ∃ res, exchange m p r w = (Ok res, (exchange m p r w).2)
    ∧ client (exchange m p r w).2 = client w
    ∧ sent (exchange m p r w).2 = sent w ++ [r]
    ∧ clock (exchange m p r w).2 = clock w.
Proof. unfold exchange. destruct (network _ _); by eexists. Qed.

(** The request for a new token, as [refreshToken] makes it. *)
Lemma invokeGet_refresh d w tok :
  truthy (accessKey (client w)) = true → bearer (client w) tok →
  invokeGet (S d) JWT_PATH [] w
  = exchange "GET" JWT_PATH (refresh_request prepare_url (client w) tok) w.
Proof.
  intros Hak [Htok Hne]. unfold invokeGet, invokeGet_body.
  rewrite bind_unfold, getEndpoint_spec, bind_unfold.
  change (getFullPath JWT_PATH w) with (Ok JWT_PATH, w).
  cbv iota beta.
  rewrite invokeSignedRequest_bearer by (done || by rewrite Htok).
  change (negb (String.eqb "GET" "GET" && String.eqb JWT_PATH JWT_PATH))
    with false.
  cbv iota. msimpl. unfold bearer_call. msimpl. rewrite Htok. done.
Qed.

(** The bearer call either raises at once or sends one request. *)
Lemma bearer_call_cases m e p h ps j w :
  (∃ ex, bearer_call m e p h ps j w = (Raise ex, w)) ∨
  (∃ tok, attr (tokenKey (client w)) = PyStr tok ∧
     bearer_call m e p h ps j w
     = exchange m p (mkReq m (prepare_url (e +:+ p) ps)
                       (<["Authorization" := "Bearer " +:+ tok]> h) j) w).
Proof.
  unfold bearer_call. msimpl.
  destruct (attr (tokenKey (client w))) as [| | |tok|] eqn:Htk; simpl;
    [left; by eexists .. | right; by exists tok | left; by eexists].
Qed.

(** A call without a token and without a secret key. *)
Lemma invokeSignedRequest_anonymous d m e p h ps j w :
  truthy (accessKey (client w)) = true →
  truthy (attr (tokenKey (client w))) = false →
  truthy (secretKey (client w)) = false →
  invokeSignedRequest (S d) m e p h ps j w =
    match str_concat "Anonymous " (accessKey (client w)) with
    | Ok v => exchange m p (mkReq m (prepare_url (e +:+ p) ps)
                              (<["Authorization" := v]> h) j) w
    | Raise ex => (Raise ex, w)
    end.
Proof.
  intros Hak Htk Hsk. cbn [Client.invokeSignedRequest].
  unfold invokeSignedRequest_body. msimpl. rewrite Hak, Htk, Hsk.
  cbn [negb andb]. msimpl.
  destruct (str_concat "Anonymous " _) as [v|ex]; [|done]. msimpl.
  unfold try_except, requests_request. msimpl. unfold send, exchange.
  destruct (network _ _); reflexivity.
Qed.

(** A call without a token, with a secret key. *)
Lemma invokeSignedRequest_signed d m e p h ps j w :
  truthy (accessKey (client w)) = true →
  truthy (attr (tokenKey (client w))) = false →
  truthy (secretKey (client w)) = true →
  invokeSignedRequest (S d) m e p h ps j w =
    match AWSAuth_call
            (aws_request_headers (accessKey (client w)) (secretKey (client w))
               (host_of (client w)))
            (mkReq m (prepare_url (e +:+ p) ps) h j) with
    | Ok r => exchange m p r w
    | Raise ex => (Raise ex, w)
    end.
Proof.
  intros Hak Htk Hsk. cbn [Client.invokeSignedRequest].
  unfold invokeSignedRequest_body. msimpl. rewrite Hak, Htk, Hsk.
  cbn [negb andb]. msimpl. unfold try_except. msimpl.
  rewrite getEndpoint_spec. unfold requests_request. msimpl.
  fold (host_of (client w)).
  destruct (AWSAuth_call _ _) as [r|ex] eqn:Hr.
  - msimpl. unfold send, exchange. destruct (network _ _); reflexivity.
  - by rewrite (SignFacts.AWSAuth_call_raises _ _ _ Hr).
Qed.

(** What [refreshToken] hands to the network. *)
Lemma refreshToken_sent d w :
  well_typed (client w) = true →
  truthy (accessKey (client w)) = true →
  sent (refreshToken (S d) w).2
  = sent w ++ (if refresh_due (client w) (clock w)
               then [refresh_request prepare_url (client w)
                       (token_text (client w))]
               else []).
Proof.
  intros Hwt Hak.
  unfold Client.refreshToken. rewrite refreshToken_body_sent by done.
  destruct (refresh_due _ _) eqn:Hdue; [|by rewrite app_nil_r].
  assert (Hb : bearer (client w) (token_text (client w))).
  { unfold refresh_due in Hdue. apply andb_true_iff in Hdue as [Htk _].
    unfold well_typed in Hwt. unfold bearer, token_text.
    by destruct (attr (tokenKey (client w))). }
  fold (invokeGet (S d)).
  rewrite (invokeGet_refresh _ _ _ Hak Hb).
  by destruct (exchange_spec "GET" JWT_PATH
                 (refresh_request prepare_url (client w)
                    (token_text (client w))) w)
    as (? & _ & _ & -> & _).
Qed.

(** When the refresh is due the object has all three token attributes. *)
Lemma refresh_due_fields c now :
  refresh_due c now = true →
  is_Some (tokenKey c) ∧ is_Some (tokenKeyExpires c)
  ∧ is_Some (tokenKeyNextRefresh c).
Proof.
  unfold refresh_due, attr.
  destruct (tokenKey c) as [tk|], (tokenKeyExpires c) as [ex|],
    (tokenKeyNextRefresh c) as [nr|];
    simpl; rewrite ?andb_false_r; try done.
  destruct ex; simpl; by rewrite andb_false_r.
Qed.

(** A refresh that is due and is answered by an error status, or not
    answered at all, clears the token state and returns [False]. *)
Lemma refreshToken_failed d w :
  truthy (accessKey (client w)) = true →
  well_typed (client w) = true →
  refresh_due (client w) (clock w) = true →
  (∀ res, network (sent w)
            (refresh_request prepare_url (client w) (token_text (client w)))
          = Some res → ok res = false) →
  refreshToken (S d) w
  = (Ok (PyBool false),
     with_client (clear_token (client w))
       (exchange "GET" JWT_PATH
          (refresh_request prepare_url (client w) (token_text (client w)))
          w).2).
Proof.
  intros Hak Hwt Hdue Hfail.
  pose proof (refresh_tests _ (clock w) Hwt) as Htests.
  destruct (refresh_due_fields _ _ Hdue) as (Hk & He & Hn).
  assert (Hb : bearer (client w) (token_text (client w))).
  { unfold refresh_due in Hdue. apply andb_true_iff in Hdue as [Htk _].
    unfold well_typed in Hwt. unfold bearer, token_text.
    by destruct (attr (tokenKey (client w))). }
  unfold Client.refreshToken, refreshToken_body. msimpl.
  destruct (if truthy (attr (tokenKeyExpires (client w))) then _ else _)
    as [notexpired|?]; [|congruence].
  msimpl.
  destruct (if truthy (attr (tokenKeyNextRefresh (client w))) then _ else _)
    as [canrefresh|?]; [|congruence].
  rewrite Htests, Hdue. msimpl.
  fold (invokeGet (S d)). rewrite (invokeGet_refresh _ _ _ Hak Hb).
  unfold exchange.
  destruct (network _ _) as [res|] eqn:Hnet.
  - unfold getEntity. rewrite (Hfail res eq_refl). msimpl.
    cbn [truthy mbind result_bind]. msimpl.
    rewrite clearAccessToken_set by done. reflexivity.
  - unfold getEntity. msimpl. cbn [truthy mbind result_bind]. msimpl.
    rewrite clearAccessToken_set by done. reflexivity.
Qed.

(** *** Call depth

    [refreshToken] only calls [invokeGet] for [GET /jwt_auth], and that
    call does not run [refreshToken] again: two levels are all the depth
    that is ever used. *)

Lemma invokeSignedRequest_body_ext rt rt' m e p h ps j w :
  (∀ w', rt w' = rt' w') →
  invokeSignedRequest_body prepare_url aws_request_headers network rt
    m e p h ps j w
  = invokeSignedRequest_body prepare_url aws_request_headers network rt'
      m e p h ps j w.
Proof.
  intros Hrt. unfold invokeSignedRequest_body. msimpl.
  destruct (negb (truthy (accessKey (client w)))); [done |].
  destruct (negb (truthy (secretKey (client w)))
            && negb (truthy (attr (tokenKey (client w))))).
  - msimpl. destruct (str_concat "Anonymous " _); [|done]. msimpl.
    destruct (truthy (attr (tokenKey (client w)))); [|done].
    destruct (negb _); [|done]. msimpl. by rewrite Hrt.
  - msimpl. destruct (truthy (attr (tokenKey (client w)))); [|done].
    destruct (negb _); [|done]. msimpl. by rewrite Hrt.
Qed.

Lemma invokeSignedRequest_body_refresh_call rt rt' e h ps j w :
  invokeSignedRequest_body prepare_url aws_request_headers network rt
    "GET" e JWT_PATH h ps j w
  = invokeSignedRequest_body prepare_url aws_request_headers network rt'
      "GET" e JWT_PATH h ps j w.
Proof. reflexivity. Qed.

Lemma refreshToken_body_ext ig ig' w :
  (∀ w', ig JWT_PATH [] w' = ig' JWT_PATH [] w') →
  refreshToken_body ig w = refreshToken_body ig' w.
Proof.
  intros Hig. unfold refreshToken_body. msimpl.
  destruct (if truthy (attr (tokenKeyExpires (client w))) then _ else _);
    [|done].
  msimpl.
  destruct (if truthy (attr (tokenKeyNextRefresh (client w))) then _ else _);
    [|done].
  msimpl. destruct (_ && _); [|done]. msimpl. by rewrite Hig.
Qed.

Lemma depth_two_suffices d m e p h ps j w :
  invokeSignedRequest (S (S d)) m e p h ps j w
  = invokeSignedRequest 2 m e p h ps j w.
Proof.
  cbn [Client.invokeSignedRequest]. apply invokeSignedRequest_body_ext.
  intros w1. apply refreshToken_body_ext. intros w2.
  unfold invokeGet_body. rewrite !bind_unfold, getEndpoint_spec.
  change (getFullPath JWT_PATH w2) with (Ok JWT_PATH, w2). cbv iota beta.
  apply invokeSignedRequest_body_refresh_call.
Qed.

End Environment.

End ClientFacts.

(** ** Token state and dispatch: the properties of the specification *)

Module ClientClaims.
Import Py Auth Client AuthSpec ClientSpec SignSpec ClientFacts CanonicalFacts.

Section Environment.
Variable prepare_url : string → list (string * string) → string.
Variable aws_request_headers :
  pyval → pyval → string → PreparedRequest → gmap string string.
Variable network : list PreparedRequest → PreparedRequest → option Response.

Abbreviation invokeSignedRequest :=
  (invokeSignedRequest prepare_url aws_request_headers network).
Abbreviation refreshToken :=
  (refreshToken prepare_url aws_request_headers network).
Abbreviation bearer_call := (bearer_call prepare_url network).
Abbreviation exchange := (exchange network).
Abbreviation refresh_request := (refresh_request prepare_url).

(** C5: with an access key that is empty or [None], every call returns
    [None] at once: nothing is sent, the client is unchanged, and the
    error "Blank access key" is logged. This holds whatever the token
    state and the secret key are. *)
Theorem blank_access_key_fails_locally d m e p h ps j w :
  truthy (accessKey (client w)) = false →
  invokeSignedRequest (S d) m e p h ps j w
  = (Ok None, add_error ("Blank access key: " +:+ m +:+ " " +:+ p) w).
Proof.
  intros Hak. cbn [Client.invokeSignedRequest].
  unfold invokeSignedRequest_body. msimpl. by rewrite Hak.
Qed.

(** C2, amended: on a well-typed token state, [refreshToken] sends the
    request for a new token exactly when the token is a non-empty
    string, the expiry is a non-zero integer after [now], and the
    next-refresh time is a non-zero integer that is strictly before
    [now] or after the expiry; it sends nothing else. When [now] equals
    the next-refresh time no refresh is due. Whenever the code's
    condition holds, so does the condition of the specification. *)
Theorem refresh_sent_iff_due d w :
  well_typed (client w) = true →
  truthy (accessKey (client w)) = true →
  sent (refreshToken (S d) w).2
  = sent w ++ (if refresh_due (client w) (clock w)
               then [refresh_request (client w) (token_text (client w))]
               else [])
  ∧ (attr (tokenKeyNextRefresh (client w)) = PyInt (clock w) →
     refresh_due (client w) (clock w) = false)
  ∧ (refresh_due (client w) (clock w) = true →
     refresh_due_spec (client w) (clock w) = true).
Proof.
  intros Hwt Hak. split_and!.
  - by apply refreshToken_sent.
  - intros Hn. unfold refresh_due. rewrite Hn.
    destruct (truthy (attr (tokenKey (client w)))); [|done]. simpl.
    destruct (attr (tokenKeyExpires (client w))) as [| |z| |]; try done.
    apply andb_false_iff.
    destruct (Z.ltb_spec (clock w) z); [|by left; rewrite !andb_false_r].
    right. apply orb_false_iff. split; apply Z.ltb_ge; lia.
  - unfold refresh_due, refresh_due_spec.
    destruct (truthy (attr (tokenKey (client w)))); [|done]. simpl.
    destruct (attr (tokenKeyExpires (client w))) as [| |z| |]; try done.
    destruct (attr (tokenKeyNextRefresh (client w))) as [| |n| |]; try done.
    intros H. apply andb_true_iff in H as [H0 H].
    apply andb_true_iff in H0 as [H0 _].
    apply andb_true_iff in H0 as [_ Hlt]. rewrite Hlt. simpl.
    apply orb_true_iff in H as [H%Z.ltb_lt | ->].
    + apply orb_true_iff. left. apply Z.leb_le. lia.
    + apply orb_true_r.
Qed.

(** C9: with a non-empty access key and a bearer token set, a call
    that is not [GET /jwt_auth] runs [refreshToken] first and only then
    attaches the token and sends the request; when the refresh is due,
    the request for a new token is the first thing sent. A call
    [GET /jwt_auth] does not run [refreshToken]: it sends exactly one
    request, itself, and leaves the client as it was, even when a
    refresh is due. *)
Theorem refresh_attempted_before_call d m e p h ps j w tok :
  truthy (accessKey (client w)) = true →
  bearer (client w) tok →
  (String.eqb m "GET" && String.eqb p JWT_PATH = false →
     invokeSignedRequest (S (S d)) m e p h ps j w
     = (refreshToken (S d);; bearer_call m e p h ps j) w
     ∧ (well_typed (client w) = true →
        refresh_due (client w) (clock w) = true →
        ∃ rest, sent (invokeSignedRequest (S (S d)) m e p h ps j w).2
                = sent w ++ refresh_request (client w) tok :: rest))
  ∧ (String.eqb m "GET" && String.eqb p JWT_PATH = true →
     invokeSignedRequest (S (S d)) m e p h ps j w
     = exchange m p (mkReq m (prepare_url (e +:+ p) ps)
                       (<["Authorization" := "Bearer " +:+ tok]> h) j) w).
Proof.
  intros Hak [Htok Hne].
  assert (Htk : truthy (attr (tokenKey (client w))) = true) by by rewrite Htok.
  split; intros Hcall; rewrite invokeSignedRequest_bearer, Hcall by done;
    cbn [negb].
  - assert (Heq : ((_ ← refreshToken (S d); mret ());;
                   bearer_call m e p h ps j) w
                  = (refreshToken (S d);; bearer_call m e p h ps j) w).
    { msimpl. by destruct (refreshToken (S d) w) as [[?|?] ?]. }
    rewrite Heq. split; [done |]. intros Hwt Hdue.
    pose proof (refreshToken_sent prepare_url aws_request_headers network
                  d w Hwt Hak) as Hsent.
    rewrite Hdue in Hsent.
    assert (Htt : token_text (client w) = tok)
      by (unfold token_text; by rewrite Htok).
    rewrite Htt in Hsent.
    rewrite bind_unfold.
    destruct (refreshToken (S d) w) as [[v|ex] w1]; cbn [snd] in *.
    + destruct (bearer_call_cases prepare_url network m e p h ps j w1)
        as [[ex ->]|(tok1 & _ & ->)].
      * exists []. exact Hsent.
      * destruct (exchange_spec network m p
                    (mkReq m (prepare_url (e +:+ p) ps)
                       (<["Authorization" := "Bearer " +:+ tok1]> h) j) w1)
          as (? & _ & _ & -> & _).
        eexists. by rewrite Hsent, <-app_assoc.
    + exists []. exact Hsent.
  - msimpl. unfold ClientSpec.bearer_call. msimpl. by rewrite Htok.
Qed.


(** C6, amended: for a non-empty token string.
    - If the payload cannot be decoded (there is no second segment, or
      it is not base64 of UTF-8 JSON), [setAccessToken] raises the error
      of the decoding and changes nothing: the token is not stored.
    - If the payload decodes to a value that is empty or has no [exp],
      and the object has expiry and next-refresh attributes of its own,
      [setAccessToken] stores the token and removes those two
      attributes; after that every call with a non-empty access key
      sends just its own request, with this token as bearer token, and
      no request for a new token, and leaves the token state as it is. *)
Theorem setAccessToken_without_expiry b64_json_loads s w :
  nonempty s = true →
  match (part ← index (split "." s) 1; b64_json_loads (part +:+ "==")) with
  | Raise ex => setAccessToken b64_json_loads (PyStr s) w = (Raise ex, w)
  | Ok decoded =>
      truthy decoded = false ∨ py_in "exp" decoded = Ok false →
      is_Some (tokenKeyExpires (client w)) →
      is_Some (tokenKeyNextRefresh (client w)) →
      let w1 := with_client
                  (set_tokenKey (Some (PyStr s))
                     (set_tokenKeyNextRefresh None
                        (set_tokenKeyExpires None (client w)))) w in
      setAccessToken b64_json_loads (PyStr s) w = (Ok (), w1)
      ∧ ∀ d m e p h ps j,
          truthy (accessKey (client w)) = true →
          invokeSignedRequest (S (S d)) m e p h ps j w1
          = exchange m p (mkReq m (prepare_url (e +:+ p) ps)
                            (<["Authorization" := "Bearer " +:+ s]> h) j) w1
  end.
Proof.
  intros Hs. unfold setAccessToken. cbn [truthy]. rewrite Hs.
  cbn [py_split]. msimpl.
  destruct (index (split "." s) 1) as [part|ex]; [|done]. msimpl.
  cbn [mbind result_bind].
  destruct (b64_json_loads (part +:+ "==")) as [decoded|ex]; [|done].
  msimpl. intros Hexp [ve He] [vn Hn].
  assert (Hno : (if truthy decoded then py_in "exp" decoded else Ok false)
                = Ok false).
  { destruct Hexp as [->|Hin]; [done |]. by destruct (truthy decoded). }
  rewrite Hno. msimpl. unfold del_attr. msimpl. rewrite He. msimpl.
  cbn [with_client client set_tokenKeyExpires tokenKeyNextRefresh].
  rewrite Hn. msimpl. split; [reflexivity |].
  intros d m e p h ps j Hak.
  rewrite invokeSignedRequest_bearer by (done || by cbn; rewrite Hs).
  assert (Hpre : ∀ b : bool,
            ((if b then _ ← refreshToken (S d); mret () else mret ()) : M ())
              (with_client
                 (set_tokenKey (Some (PyStr s))
                    (set_tokenKeyNextRefresh None
                       (set_tokenKeyExpires None (client w)))) w)
            = (Ok (), with_client
                 (set_tokenKey (Some (PyStr s))
                    (set_tokenKeyNextRefresh None
                       (set_tokenKeyExpires None (client w)))) w)).
  { intros []; [|done]. msimpl. unfold Client.refreshToken.
    by rewrite refreshToken_body_no_expiry. }
  rewrite bind_unfold, Hpre. unfold ClientSpec.bearer_call. msimpl.
  reflexivity.
Qed.

(** C1 is not what the code does. A token is set, its refresh is due, and
    the call is not [GET /jwt_auth]; the request for a new token gets an
    error status or no answer. Then the token state is cleared, as the
    claim says, but the call that started the refresh is never sent:
    ["Bearer " + self.__tokenKey] is evaluated with the token now [None]
    and raises [TypeError]. The only request handed to the network is the
    request for a new token. *)
Theorem failed_refresh_aborts_call d m e p h ps j w :
  truthy (accessKey (client w)) = true →
  well_typed (client w) = true →
  refresh_due (client w) (clock w) = true →
  String.eqb m "GET" && String.eqb p JWT_PATH = false →
  (∀ res, network (sent w)
            (refresh_request (client w) (token_text (client w))) = Some res →
          ok res = false) →
  invokeSignedRequest (S (S d)) m e p h ps j w
  = (Raise TypeError,
     with_client (clear_token (client w))
       (exchange "GET" JWT_PATH
          (refresh_request (client w) (token_text (client w))) w).2).
Proof.
  intros Hak Hwt Hdue Hcall Hfail.
  assert (Htk : truthy (attr (tokenKey (client w))) = true).
  { unfold refresh_due in Hdue. by apply andb_true_iff in Hdue as [? _]. }
  rewrite invokeSignedRequest_bearer, Hcall by done. cbn [negb]. msimpl.
  rewrite (refreshToken_failed prepare_url aws_request_headers network d w)
    by done.
  msimpl. unfold ClientSpec.bearer_call. msimpl. reflexivity.
Qed.

End Environment.

(** *** Closed instances *)

(** A refresh that is due and is rejected with status 401: the token is
    cleared, the call raises, and only the request for a new token was
    handed to the network. *)
Lemma failed_refresh_aborts_call_witness :
  Demo.dispatch Demo.rejecting 2 "GET" "https://paraio.com" "/v1/users" ∅ [] None
    Demo.w_due
  = (Raise TypeError, mkWorld Demo.fresh 1000 [Demo.refresh_get] []).
Proof.
  apply (failed_refresh_aborts_call Demo.prepare_url Demo.aws_request_headers
           Demo.rejecting 0 "GET" "https://paraio.com" "/v1/users" ∅ [] None
           Demo.w_due); try reflexivity.
  intros res [= <-]. reflexivity.
Defined.

(** When the answer to the request for a new token is a JSON object
    without the fields [user] and [jwt], [result["user"]] raises
    [KeyError]: the token state is not cleared and the call is not sent. *)
Lemma incomplete_refresh_body_raises :
  Demo.dispatch Demo.incomplete 2 "GET" "https://paraio.com" "/v1/users" ∅ [] None
    Demo.w_due
  = (Raise KeyError, mkWorld (client Demo.w_due) 1000 [Demo.refresh_get] []).
Proof. vm_compute. reflexivity. Qed.

(** C10 is not what the code does: [del] raises [AttributeError] on an
    attribute that the object does not have. Signing out of a client that
    never signed in raises, and so does clearing a second time. *)
Theorem clear_without_token_raises :
  signOut Demo.w_fresh = (Raise AttributeError, Demo.w_fresh)
  ∧ clearAccessToken Demo.w_due = (Ok (), Demo.w_fresh)
  ∧ (clearAccessToken;; clearAccessToken) Demo.w_due
    = (Raise AttributeError, Demo.w_fresh).
Proof. split_and!; vm_compute; reflexivity. Qed.

(** C2, as stated, fails: at the instant [now = nextRefresh] the
    condition of the specification holds, yet [refreshToken] sends
    nothing. *)
Lemma no_refresh_at_exact_instant :
  refresh_due_spec (client Demo.w_on_the_dot) (clock Demo.w_on_the_dot) = true
  ∧ refreshToken Demo.prepare_url Demo.aws_request_headers Demo.renewing 2
      Demo.w_on_the_dot
    = (Ok (PyBool false), Demo.w_on_the_dot).
Proof. split; vm_compute; reflexivity. Qed.

(** C6, as stated, fails: a token without a second segment raises
    [IndexError], one whose payload is not base64 raises the decoding
    error; in both cases the token is not stored. *)
Lemma undecodable_token_raises :
  setAccessToken Demo.b64_json_loads (PyStr "not-a-jwt") Demo.w_due
  = (Raise IndexError, Demo.w_due)
  ∧ setAccessToken Demo.b64_json_loads (PyStr "h.%%%.s") Demo.w_due
    = (Raise ValueError, Demo.w_due).
Proof. split; vm_compute; reflexivity. Qed.

(** A signed-in client with an empty access key sends nothing. *)
Lemma blank_access_key_fails_locally_witness :
  truthy (accessKey (client Demo.w_blank)) = false
  ∧ Demo.dispatch Demo.renewing 1 "GET" "https://paraio.com" "/v1/users" ∅ []
      None Demo.w_blank
    = (Ok None, add_error "Blank access key: GET /v1/users" Demo.w_blank).
Proof.
  split; [reflexivity |].
  apply (blank_access_key_fails_locally Demo.prepare_url
           Demo.aws_request_headers Demo.renewing 0 "GET" "https://paraio.com"
           "/v1/users" ∅ [] None Demo.w_blank).
  reflexivity.
Defined.

(** A token that expires at 2000 with next-refresh time 500, at time 1000:
    the request for a new token is sent. *)
Lemma refresh_sent_iff_due_witness :
  well_typed (client Demo.w_due) = true
  ∧ truthy (accessKey (client Demo.w_due)) = true
  ∧ refresh_due (client Demo.w_due) (clock Demo.w_due) = true
  ∧ sent (refreshToken Demo.prepare_url Demo.aws_request_headers Demo.renewing
            2 Demo.w_due).2
    = [Demo.refresh_get].
Proof.
  split_and!; [reflexivity | reflexivity | reflexivity |].
  exact (proj1 (refresh_sent_iff_due Demo.prepare_url Demo.aws_request_headers
                  Demo.renewing 1 Demo.w_due eq_refl eq_refl)).
Defined.

(** The same client: [GET /v1/users] refreshes first, [GET /jwt_auth] is
    sent as it is. *)
Lemma refresh_attempted_before_call_witness :
  truthy (accessKey (client Demo.w_due)) = true
  ∧ bearer (client Demo.w_due) "old.token"
  ∧ Demo.dispatch Demo.renewing 2 "GET" "https://paraio.com" "/v1/users" ∅ []
      None Demo.w_due
    = (refreshToken Demo.prepare_url Demo.aws_request_headers Demo.renewing 1;;
       bearer_call Demo.prepare_url Demo.renewing "GET" "https://paraio.com"
         "/v1/users" ∅ [] None) Demo.w_due
  ∧ Demo.dispatch Demo.renewing 2 "GET" "https://paraio.com" "/jwt_auth" ∅ []
      None Demo.w_due
    = exchange Demo.renewing "GET" "/jwt_auth" Demo.refresh_get Demo.w_due.
Proof.
  assert (Hb : bearer (client Demo.w_due) "old.token") by (split; reflexivity).
  split_and!; [reflexivity | exact Hb | |].
  - apply (proj1 (refresh_attempted_before_call Demo.prepare_url
                    Demo.aws_request_headers Demo.renewing 0 "GET"
                    "https://paraio.com" "/v1/users" ∅ [] None Demo.w_due
                    "old.token" eq_refl Hb)).
    reflexivity.
  - apply (proj2 (refresh_attempted_before_call Demo.prepare_url
                    Demo.aws_request_headers Demo.renewing 0 "GET"
                    "https://paraio.com" "/jwt_auth" ∅ [] None Demo.w_due
                    "old.token" eq_refl Hb)).
    reflexivity.
Defined.


(** A token whose payload is the empty object [{}]. *)
Lemma setAccessToken_without_expiry_witness :
  nonempty "h.e30.s" = true
  ∧ setAccessToken Demo.b64_json_loads (PyStr "h.e30.s") Demo.w_due
    = (Ok (),
       with_client
         (set_tokenKey (Some (PyStr "h.e30.s"))
            (set_tokenKeyNextRefresh None
               (set_tokenKeyExpires None (client Demo.w_due)))) Demo.w_due).
Proof.
  split; [reflexivity |].
  apply (setAccessToken_without_expiry Demo.prepare_url
           Demo.aws_request_headers Demo.renewing Demo.b64_json_loads
           "h.e30.s" Demo.w_due eq_refl (or_introl eq_refl)
           (ex_intro _ _ eq_refl) (ex_intro _ _ eq_refl)).
Defined.

End ClientClaims.

(** ** Further properties: [urlenc] *)

Module UrlencFacts.
Import Py Auth AuthSpec PyFacts AuthFacts More MoreSpec.

Lemma replace_append c by_ (a b : string) :
  replace c by_ (a +:+ b) = replace c by_ a +:+ replace c by_ b.
Proof.
  induction a as [|x a IH]; [done |]. rewrite append_cons. simpl.
  destruct (Ascii.eqb x c); by rewrite IH, ?append_assoc.
Qed.

Lemma percent_byte_no_plus c : replace "+" "%20" (percent_byte c) = percent_byte c.
Proof.
  apply replace_absent. unfold percent_byte. cbn [contains].
  rewrite !(proj2 (Ascii.eqb_neq _ _)); [done | | |].
  - intros E. pose proof (hex_digit_unreserved (nat_of_ascii c mod 16)) as H.
    by rewrite E in H.
  - intros E. pose proof (hex_digit_unreserved (nat_of_ascii c / 16)) as H.
    by rewrite E in H.
  - done.
Qed.

(** [urlenc] works character by character. *)
Lemma urlenc_cons c s : urlenc (String c s) = enc_char c +:+ urlenc s.
Proof.
  unfold urlenc, enc_char. cbn [quote_plus].
  destruct (is_unreserved c) eqn:Hc.
  - cbn [replace]. destruct (Ascii.eqb_spec c "+") as [->|]; [done |].
    by rewrite append_cons, append_empty_l.
  - destruct (Ascii.eqb_spec c " ") as [->|Hsp]; [reflexivity |].
    by rewrite replace_append, percent_byte_no_plus.
Qed.

Lemma hex_val_digit n : n < 16 → hex_val (hex_digit n) = n.
Proof. intros H. do 16 (destruct n as [|n]; [reflexivity |]). lia. Qed.

Lemma percent_byte_inj c1 c2 : percent_byte c1 = percent_byte c2 → c1 = c2.
Proof.
  unfold percent_byte. intros [= Hh Hl].
  pose proof (nat_ascii_bounded c1) as B1.
  pose proof (nat_ascii_bounded c2) as B2.
  apply (f_equal hex_val) in Hh, Hl.
  change (hex_val (hex_digit (nat_of_ascii c1 / 16))
          = hex_val (hex_digit (nat_of_ascii c2 / 16))) in Hh.
  change (hex_val (hex_digit (nat_of_ascii c1 mod 16))
          = hex_val (hex_digit (nat_of_ascii c2 mod 16))) in Hl.
  rewrite !hex_val_digit in Hh by (apply Nat.Div0.div_lt_upper_bound; lia).
  rewrite !hex_val_digit in Hl by (apply Nat.mod_upper_bound; lia).
  rewrite <-(ascii_nat_embedding c1), <-(ascii_nat_embedding c2). f_equal.
  rewrite (Nat.div_mod_eq (nat_of_ascii c1) 16),
    (Nat.div_mod_eq (nat_of_ascii c2) 16). lia.
Qed.

Lemma enc_char_head c :
  ∃ h t, enc_char c = String h t ∧
    (if is_unreserved c then h = c ∧ t = EmptyString
     else h = "%"%char ∧ String h t = percent_byte c).
Proof.
  unfold enc_char. destruct (is_unreserved c); [by eexists _, _ |].
  unfold percent_byte. by eexists _, _.
Qed.

Lemma urlenc_length s : String.length s ≤ String.length (urlenc s).
Proof.
  induction s as [|c s IH]; [done |]. rewrite urlenc_cons.
  unfold enc_char. destruct (is_unreserved c).
  - rewrite append_cons, append_empty_l. simpl. lia.
  - unfold percent_byte. rewrite !append_cons, append_empty_l. simpl. lia.
Qed.

(** X1: [urlenc] writes unreserved characters and percent signs only; in
    particular its result has no space and none of [+ & = / ? #]. *)
Theorem urlenc_alphabet s c :
  contains c (urlenc s) = true → is_unreserved c = true ∨ c = "%"%char.
Proof.
  intros Hc. destruct (canonical_char c) eqn:Hcc.
  - unfold canonical_char in Hcc. apply orb_true_iff in Hcc as [?|E]; [by left |].
    right. symmetry. by apply Ascii.eqb_eq.
  - pose proof (canonical_value_no c s Hcc) as Hno.
    unfold canonical_value in Hno. unfold urlenc in Hc. congruence.
Qed.

Lemma urlenc_alphabet_witness :
  contains "/" (urlenc "a/b c") = false ∧ contains " " (urlenc "a/b c") = false.
Proof.
  split; apply not_true_is_false; intros H;
    destruct (urlenc_alphabet _ _ H) as [?|?]; discriminate.
Defined.

(** [urlenc] is injective. *)
Lemma urlenc_inj s1 s2 : urlenc s1 = urlenc s2 → s1 = s2.
Proof.
  revert s2. induction s1 as [|c1 s1 IH]; intros [|c2 s2].
  - done.
  - rewrite urlenc_cons. destruct (enc_char_head c2) as (h & t & -> & _).
    by rewrite append_cons.
  - rewrite urlenc_cons. destruct (enc_char_head c1) as (h & t & -> & _).
    by rewrite append_cons.
  - rewrite !urlenc_cons. unfold enc_char.
    destruct (is_unreserved c1) eqn:H1, (is_unreserved c2) eqn:H2.
    + rewrite !append_cons, !append_empty_l. intros [= -> E]. by rewrite (IH _ E).
    + unfold percent_byte. rewrite !append_cons, !append_empty_l.
      intros [= -> _]. done.
    + unfold percent_byte. rewrite !append_cons, !append_empty_l.
      intros [= <- _]. done.
    + unfold percent_byte. rewrite !append_cons, !append_empty_l.
      intros [= Hh Hl E]. rewrite (IH _ E). f_equal.
      apply percent_byte_inj. unfold percent_byte.
      rewrite <-(f_equal (λ x, String x _) Hh).
      exact (f_equal (λ x, String _ (String _ (String x _))) Hl).
Qed.

(** X2: the strings that [urlenc] leaves as they are are exactly those
    made of unreserved characters (letters, digits, [_], [.], [-], [~]). *)
Theorem urlenc_fixed_iff_unreserved s :
  urlenc s = s ↔ all_chars is_unreserved s = true.
Proof.
  split; [|apply canonical_value_plain].
  induction s as [|c s IH]; [done |]. rewrite urlenc_cons. unfold enc_char.
  cbn [all_chars]. destruct (is_unreserved c) eqn:Hc.
  - rewrite append_cons, append_empty_l. intros [= E]. by rewrite IH.
  - unfold percent_byte. rewrite !append_cons, append_empty_l.
    intros [= _ E]. pose proof (urlenc_length s) as Hlen.
    apply (f_equal String.length) in E. simpl in E. lia.
Qed.

End UrlencFacts.

(** ** Further properties: the signing wrapper *)

Module SignExtra.
Import Py Auth AuthSpec PyFacts AuthFacts SignFacts More MoreSpec CanonicalFacts.

Lemma replace_removes c by_ s :
  contains c by_ = false → contains c (replace c by_ s) = false.
Proof.
  intros Hby. induction s as [|a s IH]; [done |]. cbn [replace].
  destruct (Ascii.eqb a c) eqn:E.
  - by rewrite contains_append, Hby, IH.
  - cbn [contains]. by rewrite E, IH.
Qed.

(** What the wrapper does on a query that canonicalisation accepts. *)
Lemma AWSAuth_call_well_formed aws r :
  well_formed (urlparse_query (url r)) = true →
  ∃ base signed,
    index (split "?" (url r)) 0 = Ok base ∧
    AWSAuth_call aws r
    = Ok (if bool_decide (NoDup (pairs_of (urlparse_query (url r))).*1)
          then auth_call aws (set_url (replace "+" "%20" (url r)) r)
          else set_headers (update (headers r) (aws signed)) r).
Proof.
  intros Hwf. unfold AWSAuth_call. rewrite canonicalize_unfold.
  destruct (scan_params_spec _ scan_init [] kept_inv_init Hwf
              (split_no_sep "&" _)) as (st & Hs & HI & Hm).
  fold (pairs_of (urlparse_query (url r))) in Hm.
  rewrite Hs. cbn. rewrite Hm. cbn [multi_valued_params scan_init orb].
  rewrite (repeats_nodup [] _ (NoDup_nil_2)). cbn [app].
  unfold index. destruct (split "?" (url r)) as [|base l] eqn:Hsp.
  { by destruct (split_not_nil "?" (url r)). }
  exists base, (set_url (base +:+ "?" +:+ querystring st) r).
  split; [done |]. case_bool_decide; cbn -[update]; [done |].
  unfold auth_call. cbn -[update]. do 2 f_equal.
  exact (update_twice (headers r) _).
Qed.

(** X6: the wrapper returns a request exactly when every non-empty
    parameter of the URL's query has an [=]; otherwise it raises
    [IndexError], whatever the signer. *)
Theorem AWSAuth_call_returns_iff aws r :
  ((∃ r', AWSAuth_call aws r = Ok r')
   ↔ well_formed (urlparse_query (url r)) = true)
  ∧ (well_formed (urlparse_query (url r)) = false →
     AWSAuth_call aws r = Raise IndexError).
Proof.
  assert (Hbad : well_formed (urlparse_query (url r)) = false →
                 AWSAuth_call aws r = Raise IndexError).
  { intros Hwf. unfold AWSAuth_call. rewrite canonicalize_unfold.
    by rewrite scan_params_ill_formed. }
  split; [split |]; [| | done].
  - intros [r' Hr]. destruct (well_formed _) eqn:Hwf; [done |].
    rewrite Hbad in Hr; done.
  - intros Hwf. destruct (AWSAuth_call_well_formed aws r Hwf)
      as (base & signed & _ & ->). by eexists.
Qed.

Lemma AWSAuth_call_returns_iff_witness :
  AWSAuth_call Demo.echo_signer
    (mkReq "GET" "https://paraio.com/v1/users?sort" ∅ None)
  = Raise IndexError.
Proof.
  apply (proj2 (AWSAuth_call_returns_iff Demo.echo_signer
                  (mkReq "GET" "https://paraio.com/v1/users?sort" ∅ None))).
  reflexivity.
Defined.

(** X7: the wrapper changes neither the method nor the body of the
    request, removes no header, and leaves every header the signer never
    produces at its value. *)
Theorem AWSAuth_call_keeps_request aws r r' :
  AWSAuth_call aws r = Ok r' →
  method r' = method r ∧ body r' = body r
  ∧ (∀ k, is_Some (headers r !! k) → is_Some (headers r' !! k))
  ∧ (∀ k, (∀ x, aws x !! k = None) → headers r' !! k = headers r !! k).
Proof.
  intros Hr.
  assert (Hwf : well_formed (urlparse_query (url r)) = true).
  { destruct (well_formed _) eqn:Hwf; [done |]. unfold AWSAuth_call in Hr.
    rewrite canonicalize_unfold, scan_params_ill_formed in Hr; done. }
  destruct (AWSAuth_call_well_formed aws r Hwf) as (base & signed & _ & Hc).
  rewrite Hc in Hr. injection Hr as <-.
  assert (Hu : ∀ (h a : gmap string string),
    (∀ k, is_Some (h !! k) → is_Some (update h a !! k))
    ∧ (∀ k, a !! k = None → update h a !! k = h !! k)).
  { intros h a. unfold update. split; intros k.
    - intros [v Hv]. destruct (a !! k) as [v'|] eqn:Ha.
      + exists v'. by apply lookup_union_Some_l.
      + exists v. by rewrite lookup_union_r.
    - intros Ha. by rewrite lookup_union_r. }
  case_bool_decide; cbn; (split_and!; [done | done | |]).
  - apply Hu.
  - intros k Hk. by apply Hu.
  - apply Hu.
  - intros k Hk. by apply Hu.
Qed.

Lemma AWSAuth_call_keeps_request_witness :
  let r := mkReq "PUT" "https://paraio.com/v1/users?a=1+2&a=3"
             {["Content-Type" := "application/json"]} (Some "{}") in
  ∃ r', AWSAuth_call (λ _, ∅) r = Ok r' ∧ method r' = "PUT" ∧ body r' = Some "{}"
    ∧ headers r' !! "Content-Type" = Some "application/json".
Proof.
  intros r. eexists. split; [reflexivity |].
  destruct (AWSAuth_call_keeps_request (λ _, ∅) r _ eq_refl) as (Hm & Hb & _ & Hh).
  split; [exact Hm |]. split; [exact Hb |].
  rewrite (Hh "Content-Type" (λ _, eq_refl)). reflexivity.
Defined.

(** X8: which URL is sent is decided by the keys of the query: when no
    key with a non-empty name occurs twice, the URL sent is the original
    one with every [+] replaced by [%20], so that it has no [+] left; when
    some key occurs twice it is the original URL, unchanged. *)
Theorem sent_url_by_key_repetition aws r r' :
  AWSAuth_call aws r = Ok r' →
  url r' = (if bool_decide (NoDup (pairs_of (urlparse_query (url r))).*1)
            then replace "+" "%20" (url r) else url r)
  ∧ (NoDup (pairs_of (urlparse_query (url r))).*1 →
     contains "+" (url r') = false).
Proof.
  intros Hr.
  assert (Hwf : well_formed (urlparse_query (url r)) = true).
  { destruct (well_formed _) eqn:Hwf; [done |]. unfold AWSAuth_call in Hr.
    rewrite canonicalize_unfold, scan_params_ill_formed in Hr; done. }
  destruct (AWSAuth_call_well_formed aws r Hwf) as (base & signed & _ & Hc).
  rewrite Hc in Hr. injection Hr as <-.
  case_bool_decide as Hnd; cbn; (split; [done |]); [| done].
  intros _. by apply replace_removes.
Qed.

Lemma sent_url_by_key_repetition_witness :
  let r := mkReq "GET" "https://paraio.com/v1/users?q=a+b&sort=name" ∅ None in
  ∃ r', AWSAuth_call Demo.echo_signer r = Ok r'
    ∧ url r' = "https://paraio.com/v1/users?q=a%20b&sort=name".
Proof.
  intros r. eexists. split; [reflexivity |].
  destruct (sent_url_by_key_repetition Demo.echo_signer r _ eq_refl) as [Hu _].
  rewrite Hu. reflexivity.
Defined.

End SignExtra.

(** ** Further properties: reading a response *)

Module EntityFacts.
Import Py Auth Client ClientSpec ClientFacts More MoreSpec.

Ltac raises := right; eexists; reflexivity.

(** X9: for a response with status 200, 201 or 304, [getEntity] never
    raises, never returns [None], and changes nothing, the log included;
    when the body is not JSON the result is the text of the response. *)
Theorem getEntity_success_status r w :
  (status_code r = 200 ∨ status_code r = 201 ∨ status_code r = 304)%Z →
  ∃ v, getEntity (Some r) w = (Ok v, w) ∧ v ≠ PyNone
    ∧ (json r = None → v = PyStr (text r))
    ∧ (∀ b, json r = Some b → truthy b = true → v = b).
Proof.
  intros Hs. unfold getEntity, ok.
  assert (Hok : ((400 <=? status_code r)%Z && (status_code r <? 600)%Z) = false).
  { destruct Hs as [-> | [-> | ->]]; reflexivity. }
  assert (Hin : ((status_code r =? 200) || (status_code r =? 201)
                 || (status_code r =? 304))%Z = true).
  { destruct Hs as [-> | [-> | ->]]; reflexivity. }
  rewrite Hok, Hin. cbn [negb]. destruct (json r) as [b|].
  - destruct (truthy b) eqn:Hb.
    + exists b. split_and!; [done | | done |].
      * intros ->. discriminate Hb.
      * by intros ? [= <-] _.
    + exists (PyDict []). split_and!; [done | done | done |].
      intros ? [= <-] Hb'. congruence.
  - exists (PyStr (text r)). by split_and!.
Qed.

Lemma getEntity_success_status_witness :
  ∃ v, getEntity (Some (mkResponse 201 None "created" "Created")) (Demo.world (init (PyStr "app:x") (PyStr "s")) 0)
       = (Ok v, Demo.world (init (PyStr "app:x") (PyStr "s")) 0)
    ∧ v = PyStr "created".
Proof.
  destruct (getEntity_success_status (mkResponse 201 None "created" "Created")
              (Demo.world (init (PyStr "app:x") (PyStr "s")) 0))
    as (v & Hv & _ & Ht & _); [right; left; reflexivity |].
  exists v. split; [exact Hv | exact (Ht eq_refl)].
Defined.

(** X10: for any other status [getEntity] never returns a value.
    - With no response, or one with a 4xx or 5xx status, it returns
      [None] and changes nothing: nothing is logged.
    - With any other status (204, 202, 302, ...) it either raises, with
      the world unchanged, or returns [None] after logging exactly one
      message; it raises [JSONDecodeError] when the body is not JSON, and
      some exception whenever the body has no true [code] field. *)
Theorem getEntity_other_status r w :
  status_code r ≠ 200%Z → status_code r ≠ 201%Z → status_code r ≠ 304%Z →
  let out := getEntity (Some r) w in
  (ok r = false → out = (Ok PyNone, w))
  ∧ (ok r = true →
     (∃ msg, out = (Ok PyNone,
                    mkWorld (client w) (clock w) (sent w) (errlog w ++ [msg])))
     ∨ (∃ e, out = (Raise e, w)))
  ∧ (ok r = true → json r = None → out = (Raise JSONDecodeError, w))
  ∧ (ok r = true →
     (∀ d c, json r = Some (PyDict d) → dict_get "code" d = Some c →
             truthy c = false) →
     ∃ e, out = (Raise e, w)).
Proof.
  intros H200 H201 H304. cbn zeta. unfold getEntity.
  apply Z.eqb_neq in H200, H201, H304. rewrite H200, H201, H304.
  cbn [orb negb].
  replace (negb (status_code r =? 404)%Z || true || negb (status_code r =? 204)%Z)
    with true by (by destruct (status_code r =? 404)%Z).
  destruct (ok r); (split_and!; try done; try intros _).
  - msimpl. destruct (json r) as [err|]; [| raises].
    msimpl. destruct (truthy err) eqn:Ht; msimpl; rewrite ?Ht; msimpl;
      [| raises].
    destruct (getitem err "code") as [c|e] eqn:Hc; msimpl; [| raises].
    destruct (truthy c) eqn:Htc; msimpl; [| raises].
    destruct (getitem err "message") as [m|e] eqn:Hmsg; msimpl; [| raises].
    assert (Hstr : ∀ (a : pyval), ∀ b,
      (∃ s, py_add a (PyStr b) = Ok (PyStr s)) ∨ (∃ e, py_add a (PyStr b) = Raise e)).
    { intros a b. destruct a; cbn; eauto. }
    assert (Hstr2 : ∀ a (b : pyval),
      (∃ s, py_add (PyStr a) b = Ok (PyStr s)) ∨ (∃ e, py_add (PyStr a) b = Raise e)).
    { intros a b. destruct b; cbn; eauto. }
    destruct (truthy m) eqn:Hm; msimpl; rewrite ?Hmsg; msimpl.
    + destruct (Hstr m " - ") as [[s ->] | [e ->]]; msimpl; [| raises].
      rewrite ?Hc. msimpl.
      destruct (Hstr2 s c) as [[s' ->] | [e ->]]; msimpl; [| raises].
      left. eexists; reflexivity.
    + change (py_add (PyStr "error") (PyStr " - ")) with (Ok (PyStr "error - ")).
      msimpl. rewrite ?Hc. msimpl.
      destruct (Hstr2 "error - " c) as [[s' ->] | [e ->]]; msimpl; [| raises].
      left. eexists; reflexivity.
  - intros ->. by msimpl.
  - intros Hcode. msimpl. destruct (json r) as [err|]; [| eexists; reflexivity].
    msimpl. destruct (truthy err) eqn:Ht; msimpl; rewrite ?Ht; msimpl;
      [| eexists; reflexivity].
    destruct err as [| b | z | s | d]; try (eexists; reflexivity).
    cbn [getitem]. destruct (dict_get "code" d) as [c|] eqn:Hd;
      [| eexists; reflexivity].
    msimpl. rewrite (Hcode _ c eq_refl Hd). msimpl. eexists; reflexivity.
Qed.

Lemma getEntity_other_status_witness :
  getEntity (Some (mkResponse 204 None "" "No Content"))
    (Demo.world (init (PyStr "app:x") (PyStr "s")) 0)
  = (Raise JSONDecodeError, Demo.world (init (PyStr "app:x") (PyStr "s")) 0).
Proof.
  refine (proj1 (proj2 (proj2 (getEntity_other_status
            (mkResponse 204 None "" "No Content")
            (Demo.world (init (PyStr "app:x") (PyStr "s")) 0) _ _ _))) _ _);
    done.
Defined.

End EntityFacts.

(** ** Further properties: paths and object URIs *)

Module PathFacts.
Import Py Auth Client AuthSpec ClientSpec PyFacts AuthFacts ClientFacts.
Import More MoreSpec UrlencFacts.

Lemma list_ascii_of_string_append (a b : string) :
  String.list_ascii_of_string (a +:+ b)
  = String.list_ascii_of_string a ++ String.list_ascii_of_string b.
Proof.
  induction a as [|x a IH]; [done |]. rewrite append_cons. simpl. by rewrite IH.
Qed.

Lemma endswith_slash_append s : endswith_slash (s +:+ "/") = true.
Proof.
  unfold endswith_slash. rewrite list_ascii_of_string_append. simpl.
  by rewrite last_snoc.
Qed.

Lemma endswith_slash_nonempty s : endswith_slash s = true → nonempty s = true.
Proof. by destruct s. Qed.

(** What [getApiPath] returns and stores. *)
Lemma getApiPath_spec w :
  getApiPath w
  = if nonempty (path (client w)) then
      if endswith_slash (path (client w)) then (Ok (path (client w)), w)
      else (Ok (path (client w) +:+ "/"),
            with_client (set_path (path (client w) +:+ "/") (client w)) w)
    else (Ok DEFAULT_ENDPOINT, w).
Proof.
  unfold getApiPath. msimpl. destruct (nonempty (path (client w))); [|done].
  cbn [negb]. by destruct (endswith_slash (path (client w))).
Qed.

(** X11: [getApiPath] never raises and changes nothing but the stored
    path. With a non-empty path stored it returns a path that ends in
    [/], which is the stored path or the stored path with a [/] added,
    and stores what it returns, so that calling it again returns the same
    and changes nothing. With an empty path stored it returns the default
    endpoint URL, not a path, and stores nothing. *)
Theorem getApiPath_normalises w :
  ∃ p w', getApiPath w = (Ok p, w')
    ∧ getApiPath w' = (Ok p, w')
    ∧ w' = with_client (set_path (path (client w')) (client w)) w
    ∧ (nonempty (path (client w)) = true →
       endswith_slash p = true ∧ path (client w') = p
       ∧ p = (if endswith_slash (path (client w)) then path (client w)
              else path (client w) +:+ "/"))
    ∧ (nonempty (path (client w)) = false → p = DEFAULT_ENDPOINT ∧ w' = w).
Proof.
  rewrite getApiPath_spec. destruct w as [c t sn lg]. cbn [client].
  destruct (nonempty (path c)) eqn:Hne.
  - destruct (endswith_slash (path c)) eqn:Hsl.
    + eexists _, _. split; [done |]. rewrite getApiPath_spec. cbn [client].
      rewrite Hne, Hsl. split; [done |]. split; [by destruct c |]. done.
    + eexists _, _. split; [done |]. rewrite getApiPath_spec.
      cbn [client with_client set_path path].
      rewrite endswith_slash_append,
        (endswith_slash_nonempty _ (endswith_slash_append _)).
      by split_and!.
  - eexists _, _. split; [done |]. rewrite getApiPath_spec. cbn [client].
    rewrite Hne. split; [done |]. split; [by destruct c |]. done.
Qed.

(** X12: one leading [/] of a resource path makes no difference:
    unless the path after the [/] begins with [jwt_auth] or with another
    [/], [getFullPath] gives the same result, and leaves the same state,
    with and without it. *)
Theorem getFullPath_leading_slash p w :
  startswith "jwt_auth" p = false → startswith "/" p = false →
  getFullPath ("/" +:+ p) w = getFullPath p w.
Proof.
  intros Hjwt Hsl. unfold getFullPath.
  change ("/" +:+ p) with (String "/" p).
  change (startswith JWT_PATH (String "/" p)) with (startswith "jwt_auth" p).
  rewrite Hjwt. cbn [nonempty andb].
  change (Ascii.eqb "/" "/") with true. cbn match.
  destruct p as [|c p]; [done |].
  change (startswith "/" (String c p)) with (Ascii.eqb "/" c && true) in Hsl.
  rewrite andb_true_r in Hsl.
  change (startswith JWT_PATH (String c p))
    with (Ascii.eqb "/" c && startswith "jwt_auth" p).
  rewrite Hsl. cbn [nonempty andb]. rewrite Ascii.eqb_sym in Hsl.
  by rewrite Hsl.
Qed.

Lemma getFullPath_leading_slash_witness :
  getFullPath "/users/u1" (Demo.world (init (PyStr "app:x") (PyStr "s")) 0)
  = getFullPath "users/u1" (Demo.world (init (PyStr "app:x") (PyStr "s")) 0).
Proof. apply (getFullPath_leading_slash "users/u1"); reflexivity. Defined.

Lemma urlenc_no_slash s : contains "/" (urlenc s) = false.
Proof. by apply (canonical_value_no "/" s). Qed.

(** The URI of an object, when there is one. *)
Lemma getObjectURI_Ok o u :
  getObjectURI o = Ok u →
  ∃ t i, obj_type o = PyStr t ∧ obj_id o = Ok i ∧
    if truthy i then ∃ s, i = PyStr s ∧ u = "/" +:+ urlenc t +:+ "/" +:+ urlenc s
    else u = "/" +:+ urlenc t.
Proof.
  unfold getObjectURI. destruct (obj_type o) as [| | | t |]; try done.
  cbn. destruct (obj_id o) as [i|]; [|done]. cbn.
  destruct (truthy i) eqn:Hi.
  - destruct i as [| | | s |]; try done. cbn. intros [= <-].
    exists t, (PyStr s). rewrite Hi. split_and!; [done | done |].
    exists s. by rewrite !append_assoc.
  - intros [= <-]. exists t, i. by rewrite Hi.
Qed.

(** X13: the URI identifies the object: two objects with the same URI
    have the same type, and the same id when they have one (an id that
    is [None] or empty counts as no id). The URI has a [/] in front of
    the encoded type and, with an id, one more in front of the encoded
    id, and no other. *)
Theorem getObjectURI_injective o1 o2 u :
  getObjectURI o1 = Ok u → getObjectURI o2 = Ok u →
  obj_type o1 = obj_type o2
  ∧ ∃ i1 i2, obj_id o1 = Ok i1 ∧ obj_id o2 = Ok i2
      ∧ truthy i1 = truthy i2 ∧ (truthy i1 = true → i1 = i2)
      ∧ length (split "/" u) = (if truthy i1 then 3 else 2).
Proof.
  intros (t1 & i1 & Ht1 & Hi1 & H1)%getObjectURI_Ok
         (t2 & i2 & Ht2 & Hi2 & H2)%getObjectURI_Ok.
  rewrite Ht1, Ht2.
  assert (Hlen2 : ∀ t, length (split "/" ("/" +:+ urlenc t)) = 2).
  { intros t. change ("/" +:+ urlenc t) with (EmptyString +:+ String "/" (urlenc t)).
    rewrite split_append_sep by done.
    by rewrite (split_no_sep_id _ _ (urlenc_no_slash t)). }
  assert (Hlen3 : ∀ t s,
    length (split "/" ("/" +:+ urlenc t +:+ "/" +:+ urlenc s)) = 3).
  { intros t s.
    change ("/" +:+ urlenc t +:+ "/" +:+ urlenc s)
      with (EmptyString +:+ String "/" (urlenc t +:+ String "/" (urlenc s))).
    rewrite split_append_sep by done.
    rewrite split_append_sep by apply urlenc_no_slash.
    by rewrite (split_no_sep_id _ _ (urlenc_no_slash s)). }
  destruct (truthy i1) eqn:E1, (truthy i2) eqn:E2.
  - destruct H1 as (s1 & -> & ->), H2 as (s2 & -> & Hu).
    change ("/" +:+ urlenc t1 +:+ "/" +:+ urlenc s1)
      with (String "/" (urlenc t1 +:+ String "/" (urlenc s1))) in Hu.
    change ("/" +:+ urlenc t2 +:+ "/" +:+ urlenc s2)
      with (String "/" (urlenc t2 +:+ String "/" (urlenc s2))) in Hu.
    injection Hu as Hu.
    apply append_sep_inj in Hu as [Ht Hs]; [| apply urlenc_no_slash ..].
    apply urlenc_inj in Ht, Hs. subst. split; [done |].
    exists (PyStr s2), (PyStr s2). rewrite E1. by split_and!.
  - destruct H1 as (s1 & -> & ->). exfalso.
    apply (f_equal (λ x, length (split "/" x))) in H2.
    rewrite Hlen3, Hlen2 in H2. done.
  - destruct H2 as (s2 & -> & ->). exfalso.
    apply (f_equal (λ x, length (split "/" x))) in H1.
    rewrite Hlen3, Hlen2 in H1. done.
  - subst u. change ("/" +:+ urlenc t1) with (String "/" (urlenc t1)) in H2.
    change ("/" +:+ urlenc t2) with (String "/" (urlenc t2)) in H2.
    injection H2 as H2. apply urlenc_inj in H2. subst. split; [done |].
    exists i1, i2. rewrite E1, E2. by split_and!.
Qed.

Lemma getObjectURI_injective_witness :
  obj_type [("id", PyStr "a/b"); ("type", PyStr "user")]
  = obj_type [("type", PyStr "user"); ("id", PyStr "a/b"); ("name", PyStr "n")].
Proof.
  refine (proj1 (getObjectURI_injective
                   [("id", PyStr "a/b"); ("type", PyStr "user")]
                   [("type", PyStr "user"); ("id", PyStr "a/b"); ("name", PyStr "n")]
                   "/user/a%2Fb" _ _)); reflexivity.
Defined.

End PathFacts.

(** ** Further properties: the token state *)

Module TokenFacts.
Import Py Auth Client ClientSpec ClientFacts More MoreSpec.

(** X14: [clearAccessToken] returns normally exactly when the object has
    all three token attributes of its own, and then all three are gone;
    otherwise it raises [AttributeError]. The attributes are removed one
    after the other: when the token is there it is removed even if the
    call then raises; when it is not there nothing is changed, so that
    an expiry or next-refresh time stays. Nothing else is touched. *)
Theorem clearAccessToken_outcome w :
  let out := clearAccessToken w in
  (out.1 = Ok () ∨ out.1 = Raise AttributeError)
  ∧ (out.1 = Ok () ↔
     is_Some (tokenKey (client w)) ∧ is_Some (tokenKeyExpires (client w))
     ∧ is_Some (tokenKeyNextRefresh (client w)))
  ∧ (out.1 = Ok () → token_cleared (client out.2))
  ∧ (is_Some (tokenKey (client w)) → tokenKey (client out.2) = None)
  ∧ (tokenKey (client w) = None → out.2 = w)
  ∧ settings (client out.2) = settings (client w)
  ∧ clock out.2 = clock w ∧ sent out.2 = sent w ∧ errlog out.2 = errlog w.
Proof.
  destruct w as [[e ak sk p [k|] [ex|] [nr|]] t sn lg]; cbn;
    (split_and!; try done; try (by left); try (by right);
     try (by repeat split);
     try (split; [by intros [=] | intros ([? ?] & [? ?] & [? ?]); done])).
Qed.

Section Environment.
Variable b64_json_loads : string → result pyval.
Variable prepare_url : string → list (string * string) → string.
Variable aws_request_headers :
  pyval → pyval → string → PreparedRequest → gmap string string.
Variable network : list PreparedRequest → PreparedRequest → option Response.

Abbreviation setAccessToken := (setAccessToken b64_json_loads).
Abbreviation refreshToken := (refreshToken prepare_url aws_request_headers network).

(** X15: [setAccessToken] and [getAccessToken]. Whenever
    [setAccessToken] returns, [getAccessToken] gives back the value that
    was set; whenever it raises, the token held before is still there.
    A value that is [None] or empty is stored without looking at it, and
    the expiry and next-refresh time stay as they were. In no case are
    the endpoint, the keys or the path changed, or anything sent or
    logged. *)
Theorem setAccessToken_getAccessToken token w :
  let out := setAccessToken token w in
  (out.1 = Ok () → getAccessToken out.2 = (Ok token, out.2))
  ∧ (∀ e, out.1 = Raise e → tokenKey (client out.2) = tokenKey (client w))
  ∧ (truthy token = false →
     out = (Ok (), with_client (set_tokenKey (Some token) (client w)) w))
  ∧ settings (client out.2) = settings (client w)
  ∧ clock out.2 = clock w ∧ sent out.2 = sent w ∧ errlog out.2 = errlog w.
Proof.
  cbn zeta. unfold Client.setAccessToken, getAccessToken, del_attr.
  destruct (truthy token) eqn:Ht; msimpl.
  2: { by split_and!. }
  destruct (py_split "." token) as [parts|]; msimpl; [| by split_and!].
  destruct (index parts 1) as [part|]; msimpl; [| by split_and!].
  destruct (b64_json_loads (part +:+ "==")) as [decoded|]; msimpl;
    [| by split_and!].
  destruct (if truthy decoded then py_in "exp" decoded else Ok false)
    as [[]|]; msimpl; [| | by split_and!].
  - destruct (py_get decoded "exp") as [ex|]; msimpl; [| by split_and!].
    destruct (py_get decoded "refresh") as [nr|]; msimpl; by split_and!.
  - destruct w as [[e ak sk p k [ex|] [nr|]] t sn lg]; cbn; by split_and!.
Qed.

(** X16: a token whose payload has an integer [exp] and no [refresh]
    claim. [setAccessToken] accepts it on any client, also one that
    never held a token, and stores the token, the expiry and [None] as
    next-refresh time. From then on [refreshToken] never asks for a new
    token, at whatever time it is called: it returns [False] and changes
    nothing. *)
Theorem token_without_refresh_claim s part d e w :
  nonempty s = true →
  index (split "." s) 1 = Ok part →
  b64_json_loads (part +:+ "==") = Ok (PyDict d) →
  dict_get "exp" d = Some (PyInt e) → dict_get "refresh" d = None →
  let w1 := with_client
              (set_tokenKeyNextRefresh (Some PyNone)
                 (set_tokenKeyExpires (Some (PyInt e))
                    (set_tokenKey (Some (PyStr s)) (client w)))) w in
  setAccessToken (PyStr s) w = (Ok (), w1)
  ∧ ∀ depth now sn lg,
      refreshToken (S depth) (mkWorld (client w1) now sn lg)
      = (Ok (PyBool false), mkWorld (client w1) now sn lg).
Proof.
  intros Hs Hpart Hdec Hexp Href. cbn zeta. split.
  - unfold Client.setAccessToken. msimpl. cbn [truthy]. rewrite Hs. msimpl.
    cbn [py_split]. msimpl. rewrite Hpart. msimpl. rewrite Hdec. msimpl.
    assert (Hd : truthy (PyDict d) = true) by (by destruct d).
    rewrite Hd. cbn [py_in py_get]. rewrite Hexp, Href. msimpl.
    by destruct w as [[]].
  - intros depth now sn lg. unfold Client.refreshToken, refreshToken_body.
    msimpl. cbn. destruct (negb (e =? 0)%Z); msimpl; cbn [truthy];
      by rewrite andb_false_r.
Qed.

End Environment.

Lemma token_without_refresh_claim_witness :
  Client.setAccessToken Demo.b64_json_loads (PyStr "h.eyJleHAiOjk5OTk5OTk5OTl9.s")
    (Demo.world (init (PyStr "app:x") (PyStr "s")) 1000)
  = (Ok (),
     Demo.world
       (mkClient DEFAULT_ENDPOINT (PyStr "app:x") (PyStr "s") DEFAULT_PATH
          (Some (PyStr "h.eyJleHAiOjk5OTk5OTk5OTl9.s"))
          (Some (PyInt 9999999999)) (Some PyNone)) 1000).
Proof.
  refine (proj1 (token_without_refresh_claim Demo.b64_json_loads
            Demo.prepare_url Demo.aws_request_headers Demo.rejecting
            "h.eyJleHAiOjk5OTk5OTk5OTl9.s" "eyJleHAiOjk5OTk5OTk5OTl9"
            [("exp", PyInt 9999999999)] 9999999999
            (Demo.world (init (PyStr "app:x") (PyStr "s")) 1000) _ _ _ _ _));
    reflexivity.
Defined.

End TokenFacts.

(** ** Further properties: dispatch *)

Module DispatchFacts.
Import Py Auth Client ClientSpec SignFacts ClientFacts More MoreSpec.

(** *** Computations within the frame *)

Lemma local_not_transport e : local_exn e → not_transport e.
Proof. intros He ->. by vm_compute in He. Qed.

Lemma isinstance_RequestException e :
  exn_isinstance e RequestException = true →
  e = RequestException ∨ e = JSONDecodeError.
Proof.
  destruct e; intros H; try (by left); try (by right); by vm_compute in H.
Qed.

Lemma raises_only_weaken {A} (P Q : PyExn → Prop) (r : result A) :
  (∀ e, P e → Q e) → raises_only P r → raises_only Q r.
Proof. intros HPQ Hr e He. by apply HPQ, Hr. Qed.

Lemma frame_mono {A} P n k (m : M A) : n ≤ k → frame P n m → frame P k m.
Proof.
  intros Hnk Hm w. destruct (Hm w) as (? & ? & (l & ? & ?) & ? & ?).
  split_and!; try done. exists l. split; [done | lia].
Qed.

Lemma frame_bind {A B} P n k (m : M A) (f : A → M B) :
  frame P n m → (∀ a, frame P k (f a)) → frame P (n + k) (m ≫= f).
Proof.
  intros Hm Hf w. rewrite bind_unfold.
  destruct (Hm w) as (Hs & Hc & (l & Hl & Hn) & (g & Hg) & Hq).
  destruct (m w) as [[a|e] w1]; cbn [fst snd] in *.
  - destruct (Hf a w1) as (Hs' & Hc' & (l' & Hl' & Hn') & (g' & Hg') & Hq').
    split_and!; [congruence | congruence | | | done].
    + exists (l ++ l'). rewrite Hl', Hl, length_app, <-app_assoc.
      split; [done | lia].
    + exists (g ++ g'). by rewrite Hg', Hg, <-app_assoc.
  - split_and!; [done | done | | by exists g |].
    + exists l. split; [done | lia].
    + intros e' [= ->]. by apply Hq.
Qed.

Lemma frame_bind_l {A B} P n (m : M A) (f : A → M B) :
  frame P 0 m → (∀ a, frame P n (f a)) → frame P n (m ≫= f).
Proof. intros Hm Hf. by apply (frame_bind P 0 n). Qed.

Lemma frame_bind_r {A B} P n (m : M A) (f : A → M B) :
  frame P n m → (∀ a, frame P 0 (f a)) → frame P n (m ≫= f).
Proof.
  intros Hm Hf. apply (frame_mono P (n + 0)); [lia |]. by apply frame_bind.
Qed.

Lemma frame_still {A} P (m : M A) :
  (∀ w, (m w).2 = w ∧ raises_only P (m w).1) → frame P 0 m.
Proof.
  intros H w. destruct (H w) as [-> Hq]. split_and!; try done.
  - exists []. by rewrite app_nil_r.
  - exists []. by rewrite app_nil_r.
Qed.

Lemma frame_ret {A} P (a : A) : frame P 0 (mret a).
Proof. by apply frame_still. Qed.
Lemma frame_lift {A} P (r : result A) : raises_only P r → frame P 0 (lift r).
Proof. intros Hr. by apply frame_still. Qed.
Lemma frame_raise {A} (P : PyExn → Prop) e : P e → frame P 0 (@raise A e).
Proof.
  intros He. apply frame_still. intros w. split; [done |]. by intros ? [= <-].
Qed.
Lemma frame_self P : frame P 0 self.
Proof. by apply frame_still. Qed.
Lemma frame_time P : frame P 0 time_ms.
Proof. by apply frame_still. Qed.

Lemma frame_update P f :
  (∀ c, settings (f c) = settings c) → frame P 0 (update_self f).
Proof.
  intros Hf w. cbn. split_and!; try done.
  - exists []. by rewrite app_nil_r.
  - exists []. by rewrite app_nil_r.
Qed.

Lemma frame_log P msg : frame P 0 (logging_error msg).
Proof.
  intros w. cbn. split_and!; try done.
  - exists []. by rewrite app_nil_r.
  - by exists [msg].
Qed.

(** The operations on values raise [TypeError], [KeyError] or
    [AttributeError] only. *)
Lemma local_getitem v k : raises_only local_exn (getitem v k).
Proof. unfold getitem. intros e. by repeat case_match; intros [= <-]. Qed.
Lemma local_str_concat s v : raises_only local_exn (str_concat s v).
Proof. unfold str_concat. intros e. by case_match; intros [= <-]. Qed.
Lemma local_py_add a b : raises_only local_exn (py_add a b).
Proof. unfold py_add. intros e. by repeat case_match; intros [= <-]. Qed.
Lemma local_py_lt a b : raises_only local_exn (py_lt a b).
Proof. unfold py_lt. intros e. by repeat case_match; intros [= <-]. Qed.
Lemma raises_only_if {A} P (b : bool) (x y : result A) :
  raises_only P x → raises_only P y → raises_only P (if b then x else y).
Proof. by destruct b. Qed.
Lemma raises_only_Ok {A} P (a : A) : raises_only P (Ok a).
Proof. by intros e. Qed.
Lemma raises_only_bind {A B} P (r : result A) (f : A → result B) :
  raises_only P r → (∀ a, raises_only P (f a)) → raises_only P (r ≫= f).
Proof.
  intros Hr Hf. destruct r; [apply Hf |]. intros e' [= ->]. by apply Hr.
Qed.
Lemma raises_only_fmap {A B} P (g : A → B) (r : result A) :
  raises_only P r → raises_only P (g <$> r).
Proof. intros Hr. destruct r; [done |]. intros e' [= ->]. by apply Hr. Qed.

Ltac frame_here l g :=
  split_and!;
    [ done | done | exists l; split; [by rewrite ?app_nil_r | cbn; lia]
    | exists g; by rewrite ?app_nil_r | try done ].

Section Frame.
(** The exceptions allowed: at least those that are not instances of
    [RequestException]. *)
Variable P : PyExn → Prop.
Hypothesis local_P : ∀ e, local_exn e → P e.

Variable prepare_url : string → list (string * string) → string.
Variable aws_request_headers :
  pyval → pyval → string → PreparedRequest → gmap string string.
Variable network : list PreparedRequest → PreparedRequest → option Response.

Abbreviation invokeSignedRequest_body :=
  (invokeSignedRequest_body prepare_url aws_request_headers network).
Abbreviation requests_request := (requests_request prepare_url network).

Lemma frame_del get set :
  (∀ c, settings (set None c) = settings c) → frame P 0 (del_attr get set).
Proof.
  intros Hset. apply frame_bind_l; [apply frame_self |]. intros c.
  destruct (get c); [by apply frame_update |]. by apply frame_raise, local_P.
Qed.

Lemma frame_clear : frame P 0 clearAccessToken.
Proof.
  unfold clearAccessToken.
  repeat (apply frame_bind_l; [by apply frame_del | intros _]).
  by apply frame_del.
Qed.

Ltac only_local :=
  apply (raises_only_weaken local_exn P _ local_P);
  repeat first
    [ apply raises_only_Ok | apply local_getitem | apply local_str_concat
    | apply local_py_add | apply local_py_lt | apply raises_only_fmap
    | apply raises_only_if | apply raises_only_bind; [|intros ?]
    | match goal with
      | |- raises_only _ (match ?x with _ => _ end) => destruct x
      end
    | by intros ? [= <-] ].

Ltac frame0 :=
  repeat first
    [ apply frame_ret | apply frame_self | apply frame_time | apply frame_log
    | apply frame_clear
    | apply frame_update; done
    | apply frame_lift; solve [only_local]
    | apply frame_bind_l; [|intros ?]
    | match goal with
      | |- frame _ _ (if ?b then _ else _) => destruct b
      | |- frame _ _ (match ?x with _ => _ end) => destruct x
      end ].

(** [getEntity] adds the [JSONDecodeError] of [res.json()]. *)
Lemma frame_getEntity res : P JSONDecodeError → frame P 0 (getEntity res).
Proof.
  intros HJ. unfold getEntity. frame0.
  apply frame_lift. destruct (json _); [by intros ? | by intros ? [= <-]].
Qed.

(** Handing a request to the network, with the failure of the exchange
    caught. *)
Lemma frame_request m url auth ps h j msg :
  (∀ a r e, auth = Some a → a r = Raise e → local_exn e) →
  frame P 1 (try_except
               (res ← requests_request m url auth ps h j; mret (Some res))
               RequestException
               (logging_error msg;; mret None)).
Proof.
  intros Hauth w. unfold try_except, Client.requests_request. msimpl.
  destruct (match auth with Some a => a _ | None => Ok _ end) as [r|e] eqn:Ha.
  - msimpl. unfold send. destruct (network (sent w) r); cbn.
    + frame_here [r] (@nil string).
    + frame_here [r] [msg].
  - cbn. assert (He : local_exn e).
    { destruct auth as [a|]; [by eapply Hauth | done]. }
    unfold local_exn in He. rewrite He. cbn.
    frame_here (@nil PreparedRequest) (@nil string).
    intros ? [= <-]. by apply local_P.
Qed.

(** One call, given what the refresh does. *)
Lemma frame_invokeSignedRequest_body n rt m e p h ps j :
  frame P n rt → frame P (n + 1) (invokeSignedRequest_body rt m e p h ps j).
Proof.
  intros Hrt. unfold Client.invokeSignedRequest_body.
  apply frame_bind_l; [apply frame_self | intros c].
  destruct (negb (truthy (accessKey c))).
  { apply (frame_mono P 0); [lia |]. frame0. }
  apply frame_bind_l; [frame0 | intros [h' do_sign]].
  apply frame_bind.
  - destruct (truthy (attr (tokenKey c))).
    + apply frame_bind_r; [| intros _; frame0].
      destruct (negb _); [| apply (frame_mono P 0); [lia | frame0]].
      apply frame_bind_r; [done | intros _; frame0].
    + apply (frame_mono P 0); [lia | frame0].
  - intros h''. destruct do_sign.
    + intros w. unfold try_except. rewrite !bind_unfold. cbn [self].
      rewrite bind_unfold, getEndpoint_spec.
      apply (frame_request m (e +:+ p) (Some (AWSAuth_call _)) ps h'' j).
      intros a r ex [= <-]. intros ->%AWSAuth_call_raises. done.
    + by apply (frame_request m (e +:+ p) None ps h'' j).
Qed.

Lemma frame_refreshToken_body n ig :
  P JSONDecodeError →
  frame P n (ig JWT_PATH []) → frame P n (refreshToken_body ig).
Proof.
  intros HJ Hig. unfold refreshToken_body.
  apply frame_bind_l; [apply frame_time | intros t].
  apply frame_bind_l; [apply frame_self | intros c].
  apply frame_bind_l; [unfold py_gt; frame0 | intros notexpired].
  apply frame_bind_l; [unfold py_gt; frame0 | intros canrefresh].
  destruct (_ && _); [| apply (frame_mono P 0); [lia | frame0]].
  apply frame_bind_r; [done | intros res].
  apply frame_bind_l; [by apply frame_getEntity | intros result]. frame0.
Qed.

Lemma frame_invokeGet_body_refresh n isr :
  (∀ e, frame P n (isr "GET" e JWT_PATH ∅ [] None)) →
  frame P n (invokeGet_body isr JWT_PATH []).
Proof.
  intros Hisr w. unfold invokeGet_body.
  rewrite bind_unfold, getEndpoint_spec. apply Hisr.
Qed.

End Frame.

Section Environment.
Variable prepare_url : string → list (string * string) → string.
Variable aws_request_headers :
  pyval → pyval → string → PreparedRequest → gmap string string.
Variable network : list PreparedRequest → PreparedRequest → option Response.

Abbreviation invokeSignedRequest :=
  (invokeSignedRequest prepare_url aws_request_headers network).
Abbreviation invokeSignedRequest_body :=
  (invokeSignedRequest_body prepare_url aws_request_headers network).
Abbreviation invokeGet := (invokeGet prepare_url aws_request_headers network).
Abbreviation refreshToken := (refreshToken prepare_url aws_request_headers network).

(** A call that does not run the refresh: the refresh request itself,
    and any call made without a token. *)
Lemma invokeSignedRequest_body_no_token rt rt' m e p h ps j w :
  truthy (attr (tokenKey (client w))) = false →
  invokeSignedRequest_body rt m e p h ps j w
  = invokeSignedRequest_body rt' m e p h ps j w.
Proof.
  intros Htk. unfold Client.invokeSignedRequest_body. msimpl.
  destruct (negb (truthy (accessKey (client w)))); [done |].
  rewrite Htk.
  destruct (negb (truthy (secretKey (client w))) && negb false).
  - msimpl. by destruct (str_concat "Anonymous " _).
  - by msimpl.
Qed.

Lemma local_without_refresh rt m e p h ps j w :
  truthy (attr (tokenKey (client w))) = false
  ∨ String.eqb m "GET" && String.eqb p JWT_PATH = true →
  raises_only local_exn (invokeSignedRequest_body rt m e p h ps j w).1.
Proof.
  intros Hcase.
  assert (Hrt : invokeSignedRequest_body rt m e p h ps j w
                = invokeSignedRequest_body (mret PyNone) m e p h ps j w).
  { destruct Hcase as [Htk | Hmp].
    - by apply invokeSignedRequest_body_no_token.
    - apply andb_true_iff in Hmp as [->%String.eqb_eq ->%String.eqb_eq].
      apply invokeSignedRequest_body_refresh_call. }
  rewrite Hrt.
  apply (frame_invokeSignedRequest_body local_exn (λ _ H, H) prepare_url
           aws_request_headers network 0).
  apply frame_ret.
Qed.

(** Every call, at every depth. *)
Lemma frame_dispatch d m e p h ps j :
  frame not_transport 2 (invokeSignedRequest d m e p h ps j)
  ∧ frame not_transport 1 (invokeSignedRequest d "GET" e JWT_PATH h ps j).
Proof.
  revert m e p h ps j. induction d as [|d IH]; intros m e p h ps j.
  - split; apply (frame_mono _ 0); try lia; by apply frame_raise.
  - split; cbn [Client.invokeSignedRequest].
    + apply (frame_invokeSignedRequest_body _ local_not_transport _ _ _ 1).
      apply (frame_refreshToken_body _ local_not_transport); [done |].
      apply frame_invokeGet_body_refresh. intros e'.
      apply (proj2 (IH "GET" e' JWT_PATH ∅ [] None)).
    + intros w.
      rewrite (invokeSignedRequest_body_refresh_call _ _ _ _ (mret PyNone)).
      apply (frame_invokeSignedRequest_body _ local_not_transport _ _ _ 0).
      apply frame_ret.
Qed.

(** What can come out of a call as an instance of [RequestException]. *)
Lemma escaping_RequestException d m e p h ps j w ex :
  (invokeSignedRequest d m e p h ps j w).1 = Raise ex →
  exn_isinstance ex RequestException = true →
  ex = JSONDecodeError
  ∧ truthy (attr (tokenKey (client w))) = true
  ∧ String.eqb m "GET" && String.eqb p JWT_PATH = false.
Proof.
  intros Hex Hcls.
  destruct (proj1 (frame_dispatch d m e p h ps j) w) as (_ & _ & _ & _ & Hq).
  destruct (isinstance_RequestException _ Hcls) as [-> | ->].
  { by destruct (Hq _ Hex). }
  split; [done |]. destruct d as [|d]; [by injection Hex |].
  cbn [Client.invokeSignedRequest] in Hex.
  destruct (truthy (attr (tokenKey (client w)))) eqn:Htk.
  - split; [done |]. destruct (_ && _) eqn:Hmp; [| done].
    pose proof (local_without_refresh _ m e p h ps j w (or_intror Hmp) _ Hex)
      as Hl.
    by vm_compute in Hl.
  - pose proof (local_without_refresh _ m e p h ps j w (or_introl Htk) _ Hex)
      as Hl.
    by vm_compute in Hl.
Qed.

(** A method that takes a resource path. *)
Lemma frame_resource_call d m rp ps j w :
  let out := (e ← getEndpoint; p ← getFullPath rp;
              invokeSignedRequest d m e p ∅ ps j) w in
  (∀ ex, out.1 = Raise ex → exn_isinstance ex RequestException = true →
         ex = JSONDecodeError ∧ truthy (attr (tokenKey (client w))) = true)
  ∧ endpoint (client out.2) = endpoint (client w)
  ∧ accessKey (client out.2) = accessKey (client w)
  ∧ secretKey (client out.2) = secretKey (client w)
  ∧ (path (client out.2) = path (client w)
     ∨ path (client out.2) = path (client w) +:+ "/")
  ∧ clock out.2 = clock w
  ∧ ∃ l, sent out.2 = sent w ++ l ∧ length l ≤ 2.
Proof.
  cbn zeta. rewrite bind_unfold, getEndpoint_spec.
  assert (Hp : ∃ p w1, getFullPath rp w = (Ok p, w1) ∧
            (w1 = w ∨ w1 = with_client
                            (set_path (path (client w) +:+ "/") (client w)) w)).
  { unfold getFullPath. destruct (_ && _); [by eexists _, _; eauto |].
    unfold getApiPath. msimpl. destruct (negb (nonempty (path (client w))));
      [by eexists _, _; eauto |].
    destruct (negb (endswith_slash (path (client w))));
      msimpl; eexists _, _; eauto. }
  destruct Hp as (p & w1 & Hp & Hw1). rewrite bind_unfold, Hp.
  destruct (proj1 (frame_dispatch d m (endpoint_of (client w)) p ∅ ps j) w1)
    as (Hs & Hc & Hl & _ & _).
  pose proof (escaping_RequestException d m (endpoint_of (client w)) p ∅ ps j
                w1) as Hesc.
  injection Hs as He Ha Hk Hpath.
  assert (Htk : tokenKey (client w1) = tokenKey (client w)).
  { by destruct Hw1 as [-> | ->]. }
  split.
  { intros ex Hex Hcls. destruct (Hesc ex Hex Hcls) as (-> & Ht & _).
    by rewrite Htk in Ht. }
  destruct Hw1 as [-> | ->]; cbn in *; split_and!; try done; by eauto.
Qed.

(** X17: what no call does, whatever the server answers and whatever
    the state. [invokeSignedRequest] never changes the endpoint, the
    keys, the path or the clock, never removes anything from what has
    been sent or logged, and sends at most two requests. The failure of
    an exchange never comes out of it as an exception (it is logged and
    gives [None]): the only instance of [RequestException] that can come
    out is the [JSONDecodeError] that [res.json()] raises while the
    answer to a token refresh is read, so none comes out of a call made
    without a token or of [GET /jwt_auth]. [invokeGet], [invokePost],
    [invokePut], [invokePatch] and [invokeDelete] do the same, except
    that they may add a [/] to the end of the stored path. *)
Theorem calls_stay_in_frame d :
  (∀ m e p h ps j w,
     let out := invokeSignedRequest d m e p h ps j w in
     (∀ ex, out.1 = Raise ex → exn_isinstance ex RequestException = true →
            ex = JSONDecodeError
            ∧ truthy (attr (tokenKey (client w))) = true
            ∧ String.eqb m "GET" && String.eqb p JWT_PATH = false)
     ∧ settings (client out.2) = settings (client w)
     ∧ clock out.2 = clock w
     ∧ (∃ l, sent out.2 = sent w ++ l ∧ length l ≤ 2)
     ∧ ∃ l, errlog out.2 = errlog w ++ l)
  ∧ (∀ rp ps entity (call : M (option Response)) w,
       call ∈ [ invokeGet d rp ps;
                invokePost prepare_url aws_request_headers network d rp entity;
                invokePut prepare_url aws_request_headers network d rp entity;
                invokePatch prepare_url aws_request_headers network d rp entity;
                invokeDelete prepare_url aws_request_headers network d rp ps ] →
       let out := call w in
       (∀ ex, out.1 = Raise ex → exn_isinstance ex RequestException = true →
              ex = JSONDecodeError
              ∧ truthy (attr (tokenKey (client w))) = true)
       ∧ endpoint (client out.2) = endpoint (client w)
       ∧ accessKey (client out.2) = accessKey (client w)
       ∧ secretKey (client out.2) = secretKey (client w)
       ∧ (path (client out.2) = path (client w)
          ∨ path (client out.2) = path (client w) +:+ "/")
       ∧ clock out.2 = clock w
       ∧ ∃ l, sent out.2 = sent w ++ l ∧ length l ≤ 2).
Proof.
  split.
  - intros m e p h ps j w.
    destruct (proj1 (frame_dispatch d m e p h ps j) w)
      as (Hs & Hc & Hl & Hg & _).
    split_and!; try done. apply escaping_RequestException.
  - intros rp ps entity call w Hcall.
    repeat (apply elem_of_cons in Hcall as [-> | Hcall]);
      [apply frame_resource_call .. | by apply elem_of_nil in Hcall].
Qed.

(** A refresh that is not due. *)
Lemma refreshToken_not_due d w :
  well_typed (client w) = true →
  refresh_due (client w) (clock w) = false →
  refreshToken d w
  = (if refresh_compares_none (client w) (clock w)
     then Raise TypeError else Ok (PyBool false), w).
Proof.
  unfold well_typed, refresh_due, refresh_compares_none,
    Client.refreshToken, refreshToken_body. msimpl.
  destruct (attr (tokenKey (client w))) as [| |?|tok|?],
    (attr (tokenKeyExpires (client w))) as [| |ex|?|?],
    (attr (tokenKeyNextRefresh (client w))) as [| |n|?|?]; simpl;
    try discriminate; intros _; msimpl; simpl;
    repeat (match goal with
            | |- context [(?a =? ?b)%Z] =>
                let E := fresh in destruct (a =? b)%Z eqn:E; simpl; rewrite ?E
            | |- context [(?a <? ?b)%Z] =>
                let E := fresh in destruct (a <? b)%Z eqn:E; simpl; rewrite ?E
            | |- context [nonempty ?t] =>
                let E := fresh in destruct (nonempty t) eqn:E; simpl; rewrite ?E
            end; simpl; msimpl; simpl; rewrite ?andb_false_r);
    done.
Qed.

(** X18: a token whose refresh is not due. On a well-typed token
    state for which the refresh is not due, [refreshToken] sends nothing
    and changes nothing, and returns [False]; except that with no expiry
    and a next-refresh time that is not in the past it raises
    [TypeError], from comparing that time with [None]. Outside that
    exception, a call with this token, whatever its method and path,
    sends exactly its own request, with the token as bearer token, and
    leaves the client as it is. *)
Theorem call_when_refresh_not_due d m e p h ps j w tok :
  well_typed (client w) = true →
  refresh_due (client w) (clock w) = false →
  refreshToken d w
  = (if refresh_compares_none (client w) (clock w)
     then Raise TypeError else Ok (PyBool false), w)
  ∧ (truthy (accessKey (client w)) = true → bearer (client w) tok →
     refresh_compares_none (client w) (clock w) = false →
     let own := mkReq m (prepare_url (e +:+ p) ps)
                  (<["Authorization" := "Bearer " +:+ tok]> h) j in
     invokeSignedRequest (S d) m e p h ps j w = exchange network m p own w
     ∧ client (invokeSignedRequest (S d) m e p h ps j w).2 = client w
     ∧ sent (invokeSignedRequest (S d) m e p h ps j w).2 = sent w ++ [own]).
Proof.
  intros Hwt Hdue. split; [by apply refreshToken_not_due |].
  intros Hak [Htok Hne] Hcmp. cbn zeta.
  assert (Hcall : invokeSignedRequest (S d) m e p h ps j w
            = ClientSpec.exchange network m p
                (mkReq m (prepare_url (e +:+ p) ps)
                   (<["Authorization" := "Bearer " +:+ tok]> h) j) w).
  { rewrite invokeSignedRequest_bearer; [| done | by rewrite Htok].
    rewrite bind_unfold.
    destruct (negb _).
    - rewrite bind_unfold, (refreshToken_not_due d w Hwt Hdue), Hcmp. msimpl.
      unfold ClientSpec.bearer_call. msimpl. by rewrite Htok.
    - msimpl. unfold ClientSpec.bearer_call. msimpl. by rewrite Htok. }
  rewrite Hcall.
  by destruct (exchange_spec network m p
                 (mkReq m (prepare_url (e +:+ p) ps)
                    (<["Authorization" := "Bearer " +:+ tok]> h) j) w)
    as (? & _ & -> & -> & _).
Qed.

(** X19: a refresh that succeeds. A token is set and its refresh is
    due; the request for a new token is answered with status 200 and a
    body that has a true [user] and a [jwt] with [access_token],
    [expires] and [refresh]. Then [refreshToken] stores these three,
    sends the one request and returns [True]; and a call that is not
    [GET /jwt_auth] sends two requests: the request for a new token with
    the old token, then its own request with the new one. *)
Theorem refresh_succeeds d m e p h ps j w res body u jw a x r :
  truthy (accessKey (client w)) = true →
  well_typed (client w) = true →
  refresh_due (client w) (clock w) = true →
  String.eqb m "GET" && String.eqb p JWT_PATH = false →
  network (sent w)
    (refresh_request prepare_url (client w) (token_text (client w)))
  = Some res →
  status_code res = 200%Z → json res = Some body →
  getitem body "user" = Ok u → truthy u = true →
  getitem body "jwt" = Ok jw → truthy jw = true →
  getitem jw "access_token" = Ok (PyStr a) →
  getitem jw "expires" = Ok x → getitem jw "refresh" = Ok r →
  let asked := refresh_request prepare_url (client w) (token_text (client w)) in
  let w1 := with_client
              (set_tokenKeyNextRefresh (Some r)
                 (set_tokenKeyExpires (Some x)
                    (set_tokenKey (Some (PyStr a)) (client w))))
              (add_sent asked w) in
  let own := mkReq m (prepare_url (e +:+ p) ps)
               (<["Authorization" := "Bearer " +:+ a]> h) j in
  refreshToken (S d) w = (Ok (PyBool true), w1)
  ∧ invokeSignedRequest (S (S d)) m e p h ps j w
    = exchange network m p own w1
  ∧ sent (invokeSignedRequest (S (S d)) m e p h ps j w).2
    = sent w ++ [asked; own].
Proof.
  intros Hak Hwt Hdue Hmp Hnet Hst Hjs Hu Htu Hjw Htjw Ha Hx Hr.
  cbn zeta.
  pose proof (refresh_tests _ (clock w) Hwt) as Htests.
  assert (Hb : bearer (client w) (token_text (client w))).
  { unfold refresh_due in Hdue. apply andb_true_iff in Hdue as [Htk _].
    unfold well_typed in Hwt. unfold bearer, token_text.
    by destruct (attr (tokenKey (client w))). }
  assert (Hbody : truthy body = true).
  { destruct body as [| | | |[|]]; done. }
  assert (Href : refreshToken (S d) w
            = (Ok (PyBool true),
               with_client
                 (set_tokenKeyNextRefresh (Some r)
                    (set_tokenKeyExpires (Some x)
                       (set_tokenKey (Some (PyStr a)) (client w))))
                 (add_sent (refresh_request prepare_url (client w)
                              (token_text (client w))) w))).
  { unfold Client.refreshToken, refreshToken_body. msimpl.
    destruct (if truthy (attr (tokenKeyExpires (client w))) then _ else _)
      as [notexpired|?]; [|congruence].
    msimpl.
    destruct (if truthy (attr (tokenKeyNextRefresh (client w))) then _ else _)
      as [canrefresh|?]; [|congruence].
    rewrite Htests, Hdue. msimpl.
    fold (invokeGet (S d)). rewrite (invokeGet_refresh _ _ _ _ _ _ Hak Hb).
    unfold ClientSpec.exchange. rewrite Hnet.
    unfold getEntity, ok. rewrite Hst, Hjs, Hbody. cbn [Z.leb Z.compare negb andb
      Z.eqb orb Pos.compare Pos.compare_cont Pos.eqb]. msimpl.
    rewrite Hbody, Hu. cbn [mbind result_bind]. rewrite Htu, Hjw. msimpl.
    rewrite Htjw. msimpl. rewrite Ha. msimpl. rewrite Hx. msimpl.
    rewrite Hr. msimpl. reflexivity. }
  assert (Hcall : invokeSignedRequest (S (S d)) m e p h ps j w
            = ClientSpec.exchange network m p
                (mkReq m (prepare_url (e +:+ p) ps)
                   (<["Authorization" := "Bearer " +:+ a]> h) j)
                (with_client
                   (set_tokenKeyNextRefresh (Some r)
                      (set_tokenKeyExpires (Some x)
                         (set_tokenKey (Some (PyStr a)) (client w))))
                   (add_sent (refresh_request prepare_url (client w)
                                (token_text (client w))) w))).
  { rewrite invokeSignedRequest_bearer; [| done | by destruct Hb as [-> ?]].
    rewrite Hmp. cbn [negb]. rewrite !bind_unfold, Href. msimpl.
    unfold ClientSpec.bearer_call. msimpl. reflexivity. }
  split; [done |]. split; [done |]. rewrite Hcall.
  destruct (exchange_spec network m p
              (mkReq m (prepare_url (e +:+ p) ps)
                 (<["Authorization" := "Bearer " +:+ a]> h) j)
              (with_client
                 (set_tokenKeyNextRefresh (Some r)
                    (set_tokenKeyExpires (Some x)
                       (set_tokenKey (Some (PyStr a)) (client w))))
                 (add_sent (refresh_request prepare_url (client w)
                              (token_text (client w))) w)))
    as (? & _ & _ & -> & _).
  cbn. by rewrite <-app_assoc.
Qed.

End Environment.

(** The exception that does come out: the answer to the refresh has
    status 204 and no body. *)
Lemma refresh_answer_without_body_raises :
  (Demo.dispatch no_content 2 "GET" "https://paraio.com" "/v1/users"
     ∅ [] None Demo.w_due).1 = Raise JSONDecodeError
  ∧ exn_isinstance JSONDecodeError RequestException = true.
Proof. split; vm_compute; reflexivity. Qed.

Lemma refresh_succeeds_witness :
  sent (Demo.dispatch Demo.renewing 2 "GET" "https://paraio.com" "/v1/users"
          ∅ [] None Demo.w_due).2
  = [ Demo.refresh_get;
      mkReq "GET" "https://paraio.com/v1/users"
        {[ "Authorization" := "Bearer new.token" ]} None ].
Proof.
  refine (proj2 (proj2 (refresh_succeeds Demo.prepare_url
            Demo.aws_request_headers Demo.renewing 0 "GET" "https://paraio.com"
            "/v1/users" ∅ [] None Demo.w_due
            (mkResponse 200 (Some (Demo.jwt_body "new.token" 9000 5000)) "" "OK")
            (Demo.jwt_body "new.token" 9000 5000)
            (PyDict [("id", PyStr "u1")])
            (PyDict [("access_token", PyStr "new.token");
                     ("expires", PyInt 9000); ("refresh", PyInt 5000)])
            "new.token" (PyInt 9000) (PyInt 5000)
            _ _ _ _ _ _ _ _ _ _ _ _ _ _))); reflexivity.
Defined.

Lemma call_when_refresh_not_due_witness :
  Client.refreshToken Demo.prepare_url Demo.aws_request_headers Demo.renewing 2
    Demo.w_on_the_dot
  = (Ok (PyBool false), Demo.w_on_the_dot).
Proof.
  refine (proj1 (call_when_refresh_not_due Demo.prepare_url
            Demo.aws_request_headers Demo.renewing 2 "GET" "https://paraio.com"
            "/v1/users" ∅ [] None Demo.w_on_the_dot "old.token" _ _));
    reflexivity.
Defined.

End DispatchFacts.

(** ** Further properties: signing in, new keys, revoking tokens *)

Module SessionFacts.
Import Py Auth Client ClientSpec SignFacts ClientFacts More MoreSpec.
Import DispatchFacts.

Lemma only_logs_bind {A B} (m : M A) (f : A → M B) :
  only_logs m → (∀ a, only_logs (f a)) → only_logs (m ≫= f).
Proof.
  intros Hm Hf w. rewrite bind_unfold. destruct (Hm w) as [l Hl].
  destruct (m w) as [[a|e] w1]; cbn [snd] in *; [| by exists l].
  destruct (Hf a w1) as [l' Hl']. exists (l ++ l').
  rewrite Hl', Hl. cbn. by rewrite app_assoc.
Qed.

Lemma only_logs_still {A} (m : M A) : (∀ w, (m w).2 = w) → only_logs m.
Proof.
  intros H w. exists []. rewrite H, app_nil_r. by destruct w.
Qed.

Lemma only_logs_log msg : only_logs (logging_error msg).
Proof. intros w. by exists [msg]. Qed.

Ltac only_logs :=
  repeat first
    [ apply only_logs_log
    | apply only_logs_still; done
    | apply only_logs_bind; [|intros ?]
    | match goal with
      | |- only_logs (if ?b then _ else _) => destruct b
      | |- only_logs (match ?x with _ => _ end) => destruct x
      end ].

Lemma only_logs_getEntity res : only_logs (getEntity res).
Proof. unfold getEntity. only_logs. Qed.

(** A response without a value. *)
Lemma getEntity_no_response res w :
  (res = None ∨ ∃ r, res = Some r ∧ ok r = false) →
  getEntity res w = (Ok PyNone, w).
Proof. intros [-> | (r & -> & Hr)]; [done |]. unfold getEntity. by rewrite Hr. Qed.

Section Environment.
Variable prepare_url : string → list (string * string) → string.
Variable aws_request_headers :
  pyval → pyval → string → PreparedRequest → gmap string string.
Variable network : list PreparedRequest → PreparedRequest → option Response.
Variable json_dumps : pyval → string.

Abbreviation invokeSignedRequest :=
  (invokeSignedRequest prepare_url aws_request_headers network).
Abbreviation invokePost := (invokePost prepare_url aws_request_headers network).
Abbreviation invokeDelete := (invokeDelete prepare_url aws_request_headers network).
Abbreviation signIn := (signIn prepare_url aws_request_headers network json_dumps).
Abbreviation newKeys := (newKeys prepare_url aws_request_headers network).
Abbreviation revokeAllTokens :=
  (revokeAllTokens prepare_url aws_request_headers network).
Abbreviation exchange := (exchange network).

(** A call made without a token leaves the client as it is, and what it
    returns is what the network answered. *)
Lemma invokeSignedRequest_no_token d m e p h ps j w :
  truthy (attr (tokenKey (client w))) = false →
  client (invokeSignedRequest (S d) m e p h ps j w).2 = client w
  ∧ ∀ res, (invokeSignedRequest (S d) m e p h ps j w).1 = Ok (Some res) →
           ∃ sn r, network sn r = Some res.
Proof.
  intros Htk.
  assert (Hex : ∀ r, client (exchange m p r w).2 = client w
            ∧ ∀ res, (exchange m p r w).1 = Ok (Some res) →
                     ∃ sn r, network sn r = Some res).
  { intros r. unfold ClientSpec.exchange.
    destruct (network (sent w) r) as [res|] eqn:Hn; cbn; (split; [done |]).
    - intros ? [= <-]. by eexists _, _.
    - by intros ? [=]. }
  destruct (truthy (accessKey (client w))) eqn:Hak.
  - destruct (truthy (secretKey (client w))) eqn:Hsk.
    + rewrite invokeSignedRequest_signed by done.
      destruct (AWSAuth_call _ _); [apply Hex | done].
    + rewrite invokeSignedRequest_anonymous by done.
      destruct (str_concat _ _); [apply Hex | done].
  - cbn [Client.invokeSignedRequest]. unfold invokeSignedRequest_body.
    msimpl. by rewrite Hak.
Qed.

(** X20: signing in on a client that holds no token, when the server
    answers no request with success. The sign-in does not return [None]:
    once the request has been made, the failed answer leads to
    [clearAccessToken], which raises [AttributeError] because there is no
    token attribute to remove. The client is left as it was. *)
Theorem failed_signIn_raises d provider providertoken rememberjwt w :
  nonempty provider = true → nonempty providertoken = true →
  tokenKey (client w) = None →
  (∀ sn r res, network sn r = Some res → ok res = false) →
  let credentials :=
    PyDict [("appid", accessKey (client w)); ("provider", PyStr provider);
            ("token", PyStr providertoken)] in
  let posted := invokePost (S d) JWT_PATH (Some (json_dumps credentials)) w in
  signIn (S d) provider providertoken rememberjwt w
  = (match posted.1 with
     | Ok _ => Raise AttributeError
     | Raise e => Raise e
     end, posted.2)
  ∧ client posted.2 = client w.
Proof.
  intros Hp Ht Htk Hnet. cbn zeta. unfold More.signIn. rewrite Hp, Ht.
  cbn [negb orb]. msimpl. unfold More.invokePost.
  rewrite !bind_unfold, getEndpoint_spec, !bind_unfold.
  change (getFullPath JWT_PATH w) with (Ok JWT_PATH, w). cbv iota beta.
  destruct (invokeSignedRequest_no_token d "POST" (endpoint_of (client w))
              JWT_PATH ∅ [] (Some (json_dumps (PyDict
                [("appid", accessKey (client w)); ("provider", PyStr provider);
                 ("token", PyStr providertoken)]))) w) as [Hc Hres].
  { unfold attr. by rewrite Htk. }
  destruct (invokeSignedRequest _ _ _ _ _ _ _ w) as [[res|e] w1];
    cbn [fst snd] in *.
  2: { split; [reflexivity | done]. }
  rewrite bind_unfold, getEntity_no_response.
  - msimpl. cbn [truthy]. msimpl.
    rewrite clearAccessToken_unset by (by rewrite Hc). done.
  - destruct res as [res|]; [right | by left]. exists res. split; [done |].
    destruct (Hres res eq_refl) as (sn & r & Hn). by eapply Hnet.
Qed.

(** X21: signing in, answered with status 200 and a body that has a
    true [user] object and a true [jwt]. [signIn] returns a new object
    with the fields of [user] set over its own; with [rememberjwt] it
    stores the token, expiry and next-refresh time of [jwt], and without
    it it leaves the client as the request left it: no token is stored
    and none is removed. Both ways the same requests are sent. *)
Theorem signIn_answered d provider providertoken rememberjwt
    w res w1 body user jw a x r :
  nonempty provider = true → nonempty providertoken = true →
  invokePost d JWT_PATH
    (Some (json_dumps
             (PyDict [("appid", accessKey (client w));
                      ("provider", PyStr provider);
                      ("token", PyStr providertoken)]))) w
  = (Ok (Some res), w1) →
  status_code res = 200%Z → json res = Some body →
  getitem body "user" = Ok (PyDict user) → user ≠ [] →
  getitem body "jwt" = Ok jw → truthy jw = true →
  (rememberjwt = true →
   getitem jw "access_token" = Ok a ∧ getitem jw "expires" = Ok x
   ∧ getitem jw "refresh" = Ok r) →
  signIn d provider providertoken rememberjwt w
  = (Ok (Some (dict_update
                 [("id", PyNone); ("type", PyStr "sysprop");
                  ("timestamp", PyInt (clock w1))] user)),
     if rememberjwt then
       with_client
         (set_tokenKeyNextRefresh (Some r)
            (set_tokenKeyExpires (Some x)
               (set_tokenKey (Some a) (client w1)))) w1
     else w1).
Proof.
  intros Hp Ht Hpost Hst Hjs Hu Hne Hjw Htjw Hrem.
  assert (Hbody : truthy body = true).
  { destruct body as [| | | |[|]]; done. }
  assert (Huser : truthy (PyDict user) = true) by (by destruct user).
  unfold More.signIn. rewrite Hp, Ht. cbn [negb orb]. msimpl.
  rewrite Hpost. rewrite bind_unfold.
  unfold getEntity, ok. rewrite Hst, Hjs, Hbody.
  cbn [Z.leb Z.compare negb andb Z.eqb orb Pos.compare Pos.compare_cont
       Pos.eqb]. msimpl.
  rewrite Hbody, Hu. cbn [mbind result_bind]. rewrite Huser, Hjw. msimpl.
  rewrite Htjw. msimpl. destruct rememberjwt.
  - destruct (Hrem eq_refl) as (-> & -> & ->). msimpl.
    unfold ParaObject_new. msimpl. reflexivity.
  - msimpl. unfold ParaObject_new. msimpl. reflexivity.
Qed.



End Environment.

Lemma signIn_answered_witness :
  (More.signIn Demo.prepare_url Demo.aws_request_headers Demo.renewing
     (λ _, "{}") 2 "facebook" "token" true Demo.w_fresh).1
  = Ok (Some [("id", PyStr "u1"); ("type", PyStr "sysprop");
              ("timestamp", PyInt 1000)]).
Proof.
  refine (f_equal fst (signIn_answered Demo.prepare_url
            Demo.aws_request_headers Demo.renewing (λ _, "{}")
            2 "facebook" "token" true Demo.w_fresh
            (mkResponse 200 (Some (Demo.jwt_body "new.token" 9000 5000)) "" "OK")
            _ (Demo.jwt_body "new.token" 9000 5000)
            [("id", PyStr "u1")]
            (PyDict [("access_token", PyStr "new.token");
                     ("expires", PyInt 9000); ("refresh", PyInt 5000)])
            (PyStr "new.token") (PyInt 9000) (PyInt 5000)
            eq_refl eq_refl eq_refl eq_refl eq_refl eq_refl _ eq_refl eq_refl _));
    [done | by intros _].
Defined.


Lemma failed_signIn_raises_witness :
  (More.signIn Demo.prepare_url Demo.aws_request_headers Demo.rejecting
     (λ _, "{}") 2 "facebook" "token" true Demo.w_fresh).1
  = Raise AttributeError.
Proof.
  refine (f_equal fst (proj1 (failed_signIn_raises Demo.prepare_url
            Demo.aws_request_headers Demo.rejecting (λ _, "{}")
            1 "facebook" "token" true Demo.w_fresh _ _ _ _)));
    try reflexivity.
  by intros sn r res [= <-].
Defined.

End SessionFacts.
